(** * phlex: product stores, output nodes, test plugins and the Python
      registration front end, embedded from the C++ sources.

    Layout: the definitions come first, one module per source file, the
    theorems follow.  Machine integers are [Z] with their range written
    out; nullable pointers are [option]; the products of a store are a
    finite map keyed by product name. *)

From Stdlib Require Import ZArith Lia.
From stdpp Require Import gmap strings list pretty.

Set Default Proof Using "Type".

(* ===================================================================== *)
(** ** phlex/model/level_id.hpp                                           *)
(* ===================================================================== *)

Module LevelId.

(** Modelled from the spec: the header phlex/model/level_id.hpp (class
    [level_id], named [data_cell_index] in the provider sources) is not
    among the sources.  The spec gives a Level ID as an ordered path
    [(n0,name0), (n1,name1), ...] rooted at an empty path. *)
Definition level_id : Type := list (N * string).

(** Modelled from the spec: the root is the empty path. *)
Definition base : level_id := [].

(** Modelled from the spec: [depth()] is the number of components. *)
Definition depth (i : level_id) : nat := length i.

(** Modelled from the spec: [make_child(n, name)] extends the path by one
    component. *)
Definition make_child (i : level_id) (n : N) (name : string) : level_id :=
  i ++ [(n, name)].

(** Modelled from the spec: [number()] is the index of the last component
    (0 at the root, which has none). *)
Definition number (i : level_id) : N :=
  match last i with
  | Some (n, _) => n
  | None => 0%N
  end.

(** Modelled from the spec: [level_name()] is the name of the last
    component (empty at the root, which has none). *)
Definition level_name (i : level_id) : string :=
  match last i with
  | Some (_, name) => name
  | None => ""
  end.

End LevelId.

(* ===================================================================== *)
(** ** phlex/model/products.cpp                                           *)
(* ===================================================================== *)

Module Products.

(** A product is an opaque value together with the name of its type. *)
Inductive payload : Type :=
| PInt (z : Z)
| PBool (b : bool)
| PText (s : string).

Record product : Type := Product {
  product_type : string;
  product_value : payload
}.

(** [products::products_]: the name-keyed container. *)
Abbreviation products := (gmap string product).

(** [products::contains]. *)
Definition contains (p : products) (product_name : string) : bool :=
  bool_decide (is_Some (p !! product_name)).

(** Modelled from the spec: the defaulted [products new_products = {}]
    argument of the store constructor is declared in the absent header
    product_store.hpp; a flush store carries no products. *)
Definition default_products : products := ∅.

End Products.

(* ===================================================================== *)
(** ** phlex/model/product_store.cpp                                      *)
(* ===================================================================== *)

Module ProductStore.
Import LevelId Products.

Inductive stage : Type := process | flush.

Definition stage_eqb (a b : stage) : bool :=
  match a, b with
  | process, process | flush, flush => true
  | _, _ => false
  end.

(** The five data members of [product_store].  [parent_] is a shared
    pointer to an immutable, earlier built store, so the chain of parents
    is finite: an inductive type with [None] for the null pointer. *)
#[local] Unset Elimination Schemes.
Inductive product_store : Type := ProductStore {
  parent_ : option product_store;
  products_ : products;
  id_ : level_id;
  source_ : string;
  stage_ : stage
}.
#[local] Set Elimination Schemes.

(** Induction along the parent chain. *)
Fixpoint product_store_chain_ind (P : product_store → Prop)
    (Hroot : ∀ pr i src st, P (ProductStore None pr i src st))
    (Hchild : ∀ p pr i src st, P p → P (ProductStore (Some p) pr i src st))
    (s : product_store) : P s :=
  match s with
  | ProductStore None pr i src st => Hroot pr i src st
  | ProductStore (Some p) pr i src st =>
      Hchild p pr i src st (product_store_chain_ind P Hroot Hchild p)
  end.

(** First constructor (lines 13-24): every member is given. *)
Definition new_store (parent : option product_store) (i : level_id)
    (source : string) (processing_stage : stage) (new_products : products)
    : product_store :=
  ProductStore parent new_products i source processing_stage.

(** Second constructor (lines 26-37): a child carrying products. *)
Definition new_child_with_products (parent : product_store)
    (new_level_number : N) (new_level_name : string) (source : string)
    (new_products : products) : product_store :=
  ProductStore (Some parent) new_products
    (LevelId.make_child (id_ parent) new_level_number new_level_name)
    source process.

(** Third constructor (lines 39-49): a child with a stage and no products. *)
Definition new_child_with_stage (parent : product_store)
    (new_level_number : N) (new_level_name : string) (source : string)
    (processing_stage : stage) : product_store :=
  ProductStore (Some parent) default_products
    (LevelId.make_child (id_ parent) new_level_number new_level_name)
    source processing_stage.

(** [product_store::base]: all constructor arguments defaulted. *)
Definition base : product_store :=
  new_store None LevelId.base "" process default_products.

(** Accessors (lines 109-118). *)
Definition level_name (s : product_store) : string := LevelId.level_name (id_ s).
Definition source (s : product_store) : string := source_ s.
Definition parent (s : product_store) : option product_store := parent_ s.
Definition id (s : product_store) : level_id := id_ s.
Definition is_flush (s : product_store) : bool := stage_eqb (stage_ s) flush.
Definition contains_product (s : product_store) (product_name : string) : bool :=
  Products.contains (products_ s) product_name.

(** The [while (store != nullptr)] loop of [parent(level_name)], entered
    with a non-null [store]. *)
Fixpoint parent_loop (store : product_store) (name : string)
    : option product_store :=
  if String.eqb (level_name store) name then Some store
  else match store with
       | ProductStore (Some up) _ _ _ _ => parent_loop up name
       | ProductStore None _ _ _ _ => None
       end.

(** [product_store::parent(std::string const&)]: the loop starts at
    [parent_]. *)
Definition parent_of_level (s : product_store) (name : string)
    : option product_store :=
  match parent_ s with
  | Some store => parent_loop store name
  | None => None
  end.

(** The loop of [store_for_product], entered with a non-null [store]. *)
Fixpoint store_for_product_loop (store : product_store) (product_name : string)
    : option product_store :=
  if contains_product store product_name then Some store
  else match store with
       | ProductStore (Some up) _ _ _ _ => store_for_product_loop up product_name
       | ProductStore None _ _ _ _ => None
       end.

(** [product_store::store_for_product]: the loop starts at
    [shared_from_this()]. *)
Definition store_for_product (s : product_store) (product_name : string)
    : option product_store :=
  store_for_product_loop s product_name.

(** [product_store::make_flush]. *)
Definition make_flush (s : product_store) : product_store :=
  new_store (parent_ s) (id_ s) "[inserted]" flush default_products.

(** [product_store::make_continuation]. *)
Definition make_continuation (s : product_store) (source : string)
    (new_products : products) : product_store :=
  new_store (parent_ s) (id_ s) source process new_products.

(** [product_store::make_child], products overload. *)
Definition make_child (s : product_store) (new_level_number : N)
    (new_level_name : string) (source : string) (new_products : products)
    : product_store :=
  new_child_with_products s new_level_number new_level_name source new_products.

(** [product_store::make_child], stage overload. *)
Definition make_child_stage (s : product_store) (new_level_number : N)
    (new_level_name : string) (source : string) (processing_stage : stage)
    : product_store :=
  new_child_with_stage s new_level_number new_level_name source processing_stage.

(** [more_derived]: a reference to one of its two arguments. *)
Definition more_derived (a b : product_store) : product_store :=
  if bool_decide (LevelId.depth (id b) < LevelId.depth (id a)) then a else b.

(** The stores met walking from [s] to the root, [s] first. *)
Fixpoint chain (s : product_store) : list product_store :=
  s :: match s with
       | ProductStore (Some up) _ _ _ _ => chain up
       | ProductStore None _ _ _ _ => []
       end.

(** The proper ancestors of [s], nearest first. *)
Definition ancestors (s : product_store) : list product_store :=
  match parent_ s with
  | Some up => chain up
  | None => []
  end.

(** The stores a program can build: the base store, and whatever the four
    factory functions make from a store already built. *)
Inductive built : product_store → Prop :=
| built_base : built base
| built_child s n L src p : built s → built (make_child s n L src p)
| built_child_stage s n L src st : built s → built (make_child_stage s n L src st)
| built_continuation s src p : built s → built (make_continuation s src p)
| built_flush s : built s → built (make_flush s).

(** The id of a store follows its parent link: the base id at a store
    without parent, one component more than the id of the parent
    otherwise. *)
Definition id_follows_parent (s : product_store) : Prop :=
  match parent s with
  | None => id s = LevelId.base
  | Some up => ∃ n L, id s = LevelId.make_child (id up) n L
  end.

End ProductStore.

(* ===================================================================== *)
(** ** phlex/core/declared_output.cpp                                     *)
(* ===================================================================== *)

Module DeclaredOutput.
Import ProductStore.

(** The one member of [message] that the node body reads. *)
Record message : Type := Message { store : product_store }.

(** [tbb::flow::continue_msg], the value with which a node body completes. *)
Inductive continue_msg : Type := ContinueMsg.

Section node.
(** [W] is whatever the user callable writes to (the persistence back end). *)
Context {W : Type}.

(** A call either returns or throws. *)
Inductive outcome (A : Type) : Type :=
| Returns (a : A)
| Throws (what : string).
#[global] Arguments Returns {A} a.
#[global] Arguments Throws {A} what.

(** The state threaded through a node body: the back end, and the log of
    the stores on which the user callable was invoked, oldest first. *)
Record world : Type := World {
  backend : W;
  invoked : list product_store
}.

Definition body_m (A : Type) : Type := world → outcome A * world.

Definition body_ret {A} (a : A) : body_m A := λ w, (Returns a, w).

Definition body_bind {A B} (m : body_m A) (k : A → body_m B) : body_m B :=
  λ w, match m w with
       | (Returns a, w') => k a w'
       | (Throws e, w') => (Throws e, w')
       end.

(** [detail::output_function_t]: a callable on a store, with its effect on
    the back end. *)
Definition output_function_t : Type := product_store → W → outcome unit * W.

(** The call of [f] on the store of the message: logged, then run. *)
Definition call (f : output_function_t) (s : product_store) : body_m unit :=
  λ w, let '(r, b) := f s (backend w) in
       (r, {| backend := b; invoked := invoked w ++ [s] |}).

(** The body of [declared_output::node_] (lines 21-26). *)
Definition node_body (f : output_function_t) (msg : message) : body_m continue_msg :=
  body_bind
    (if negb (is_flush (store msg)) then call f (store msg) else body_ret tt)
    (λ _, body_ret ContinueMsg).

(** The invocations of the user callable made while going from [w] to [w']. *)
Definition invocations (w w' : world) : list product_store :=
  drop (length (invoked w)) (invoked w').

End node.
End DeclaredOutput.

(* ===================================================================== *)
(** ** phlex/core/dot/attributes.cpp                                      *)
(* ===================================================================== *)

Module Dot.

(** The six string members of [attributes] that [to_string] reads, in the
    order it reads them. *)
Record attributes : Type := Attributes {
  color : string;
  fontcolor : string;
  fontsize : string;
  label : string;
  shape : string;
  style : string
}.

(** [std::string::empty]. *)
Definition empty (s : string) : bool :=
  match s with
  | EmptyString => true
  | String _ _ => false
  end.

(** The double quote character of the label. *)
Definition quote_mark : string := String (Ascii.ascii_of_nat 34) EmptyString.

(** Line 5. *)
Definition maybe_comma (result : string) : string :=
  if empty result then "" else ", ".

(** Lines 9-31; each [result += a + b + c] appends [(a + b) + c]. *)
Definition to_string (attrs : attributes) : string :=
  let result := "" in
  let result :=
    if negb (empty (color attrs))
    then result +:+ ("color=" +:+ color attrs) else result in
  let result :=
    if negb (empty (fontcolor attrs))
    then result +:+ ((maybe_comma result +:+ "fontcolor=") +:+ fontcolor attrs)
    else result in
  let result :=
    if negb (empty (fontsize attrs))
    then result +:+ ((maybe_comma result +:+ "fontsize=") +:+ fontsize attrs)
    else result in
  let result :=
    if negb (empty (label attrs))
    then result +:+ (((maybe_comma result +:+ ("label=" +:+ quote_mark +:+ " "))
                      +:+ label attrs) +:+ quote_mark)
    else result in
  let result :=
    if negb (empty (shape attrs))
    then result +:+ ((maybe_comma result +:+ "shape=") +:+ shape attrs)
    else result in
  let result :=
    if negb (empty (style attrs))
    then result +:+ ((maybe_comma result +:+ "style=") +:+ style attrs)
    else result in
  ("[" +:+ result) +:+ "]".

(** Line 34. *)
Definition parenthesized (n : string) : string := ("(" +:+ n) +:+ ")".

(** One attribute as it is printed, if it is set. *)
Definition shown (key value : string) : list string :=
  if empty value then [] else [key +:+ value].

(** The attributes that are set, as printed, in the order of [to_string];
    the label is printed between a quote followed by a blank and a quote. *)
Definition rendered (attrs : attributes) : list string :=
  shown "color=" (color attrs)
  ++ shown "fontcolor=" (fontcolor attrs)
  ++ shown "fontsize=" (fontsize attrs)
  ++ (if empty (label attrs) then []
      else ["label=" +:+ quote_mark +:+ " " +:+ label attrs +:+ quote_mark])
  ++ shown "shape=" (shape attrs)
  ++ shown "style=" (style attrs).

End Dot.

(* ===================================================================== *)
(** ** C++ [int] and [std::size_t]                                        *)
(* ===================================================================== *)

Module CInt.

Definition INT_MIN : Z := -2147483648.
Definition INT_MAX : Z := 2147483647.

Definition representable (z : Z) : bool :=
  bool_decide (INT_MIN ≤ z ≤ INT_MAX)%Z.

(** Signed [int] arithmetic: a result that does not fit is an overflow, for
    which C++ defines no value ([None]). *)
Definition checked (z : Z) : option Z :=
  if representable z then Some z else None.

Definition add (a b : Z) : option Z := checked (a + b).
Definition sub (a b : Z) : option Z := checked (a - b).

(** Conversion of a [std::size_t] to [int]: the value modulo 2^32, read as
    a two's complement number. *)
Definition of_size_t (n : N) : Z :=
  let r := (Z.of_N n mod 2 ^ 32)%Z in
  if (r <? 2 ^ 31)%Z then r else (r - 2 ^ 32)%Z.

(** [unsigned int] and [unsigned long] arithmetic is modulo 2^32 and 2^64. *)
Definition uint (z : Z) : Z := (z mod 2 ^ 32)%Z.
Definition ulong (z : Z) : Z := (z mod 2 ^ 64)%Z.

Definition LONG_MIN : Z := (- 2 ^ 63)%Z.
Definition LONG_MAX : Z := (2 ^ 63 - 1)%Z.
Definition ULONG_MAX : Z := (2 ^ 64 - 1)%Z.

(** Signed [long] arithmetic, like [checked] for [int]. *)
Definition checked_long (z : Z) : option Z :=
  if bool_decide (LONG_MIN ≤ z ≤ LONG_MAX)%Z then Some z else None.

(** Conversion of any integer value to [int], [unsigned int] keeps the low
    32 bits; [to_int] reads them as a two's complement number. *)
Definition to_int (z : Z) : Z :=
  let r := (z mod 2 ^ 32)%Z in
  if (r <? 2 ^ 31)%Z then r else (r - 2 ^ 32)%Z.

End CInt.

(* ===================================================================== *)
(** ** test/benchmarks, test/python/source.cpp, test/plugins/module.cpp   *)
(* ===================================================================== *)

Module Plugins.
Import LevelId.

(** test/benchmarks/last_index.cpp *)
Definition last_index (id : level_id) : Z := CInt.of_size_t (number id).

(** test/benchmarks/plus_one.cpp *)
Definition plus_one (i : Z) : option Z := CInt.add i 1.

(** test/benchmarks/plus_101.cpp *)
Definition plus_101 (i : Z) : option Z := CInt.add i 101.

(** test/python/source.cpp, lines 9-10: [id.number() % 2], computed in
    [std::size_t] and returned as [int]. *)
Definition provide_i (id : level_id) : Z :=
  CInt.of_size_t (number id mod 2)%N.

(** test/python/source.cpp, lines 11-13. *)
Definition provide_j (id : level_id) : option Z :=
  CInt.sub 1 (CInt.of_size_t (number id mod 2)%N).

(** Modelled from the spec: [test::add] is declared in test/plugins/add.hpp,
    which is not among the sources; the transform "add(i,j)->sum" returns
    i+j, on [int]. *)
Definition add (i j : Z) : option Z := CInt.add i j.

(** test/plugins/module.cpp, line 14: the observer "verify" of the C++
    plugin test, that is whether [assert(actual == 0)] holds.  It reads the
    "sum" of the "add" registered in the same file; the providers that
    feed that test are not among the sources, and nothing wires this
    observer to the providers of test/python/source.cpp. *)
Definition verify (actual : Z) : bool := (actual =? 0)%Z.


(** Cell [n] of the level "cell" below the root. *)
Definition cell (n : N) : level_id := make_child base n "cell".

(** The cells a driver delivers, numbered from 0. *)
Definition cells (count : nat) : list level_id :=
  (λ k, cell (N.of_nat k)) <$> seq 0 count.

(** plus_one / plus_101 scenario: the source product "a" of a cell is
    [last_index] of its id; "b" and "c" come from the two transforms; the
    sink sees the pair. *)
Definition plus_pair (id : level_id) : option (Z * Z) :=
  let a := last_index id in
  b ← plus_one a;
  c ← plus_101 a;
  Some (b, c).

Definition plus_scenario (delivered : list level_id) : option (list (Z * Z)) :=
  mapM plus_pair delivered.



(** test/python/source.cpp, line 14. *)
Definition provide_k (id : level_id) : Z := 0%Z.

(** Lines 35-42: the [unsigned int] pair. *)
Definition provide_u1 (id : level_id) : Z :=
  CInt.uint (Z.of_N (number id mod 2)).

Definition provide_u2 (id : level_id) : Z :=
  CInt.uint (1 - CInt.uint (Z.of_N (number id mod 2))).

(** Lines 44-48: the [long] pair. *)
Definition provide_l1 (id : level_id) : Z := Z.of_N (number id mod 2).

Definition provide_l2 (id : level_id) : option Z :=
  CInt.checked_long (1 - Z.of_N (number id mod 2)).

(** Lines 50-58: the [unsigned long] pair. *)
Definition provide_ul1 (id : level_id) : Z :=
  CInt.ulong (Z.of_N (number id mod 101)).

Definition provide_ul2 (id : level_id) : Z :=
  CInt.ulong (100 - CInt.ulong (Z.of_N (number id mod 101))).

(** Lines 60-63: the [bool] pair. *)
Definition provide_b1 (id : level_id) : bool := (number id mod 2 =? 0)%N.

Definition provide_b2 (id : level_id) : bool := negb (number id mod 2 =? 0)%N.



End Plugins.

(* ===================================================================== *)
(** ** plugins/python/src/modulewrap.cpp                                  *)
(* ===================================================================== *)

Module ModuleWrap.

(** Line 33: the hard-wired layer. *)
Definition LAYER : string := "job".

(** *** The Python objects that registration inspects *)

Inductive exception : Type := TypeError | ValueError | AttributeError.

Record py_error : Type := PyError { exc_type : exception; exc_text : string }.

(** An object as far as [PyUnicode_AsUTF8] tells: a [str] with its UTF-8
    text as a C string holds it (up to a NUL character, if there is one),
    or something of which it returns the null pointer (no [str], or a
    [str] that has no UTF-8 encoding). *)
Inductive attr_value : Type :=
| AttrText (utf8 : string)
| AttrOther.

(** An annotation: a [str] naming the type, with its UTF-8 text if it has
    one, or another object with its [__name__] attribute (if any) and the
    result of its [str()], which is missing when [str()] raises. *)
Inductive annotation : Type :=
| AnnUnicode (utf8 : option string)
| AnnObject (name_attr : option attr_value) (str : option string).

Inductive dict_key : Type :=
| KeyText (utf8 : string)
| KeyOther (tag : N).

(** The value of an [__annotations__] attribute: a dict with its entries in
    insertion order, or something that fails [PyDict_Check]. *)
Inductive annotations_object : Type :=
| AnnotDict (entries : list (dict_key * annotation))
| AnnotOther.

(** The callable handed to registration, with the attributes that
    registration looks up; [__name__] can be any object. *)
Record callable : Type := Callable {
  object_id : N;
  callable_check : bool;
  dunder_name : option attr_value;
  dunder_annotations : option annotations_object;
  dunder_call : option (option annotations_object);
  phlex_callable : option N
}.

(** What [PySequence_GetItem] gives at one index: a [str] with its UTF-8
    text, an object of which [PyUnicode_AsUTF8] returns the null pointer,
    or a failure that sets the error [e]. *)
Inductive seq_item : Type :=
| ItemText (utf8 : string)
| ItemOther
| ItemFails (e : py_error).

(** An argument as [PySequence_Check] and [PySequence_Size] see it: a
    sequence with the items at the indices below its size; an object that
    passes [PySequence_Check] but has no length, so that [PySequence_Size]
    fails (a class with [__getitem__] and no [__len__]); or an object that
    fails [PySequence_Check]. *)
Inductive py_sequence : Type :=
| Sequence (items : list seq_item)
| Unsized
| NotSequence.

Inductive concurrency_arg : Type := ConcurrencyNone | ConcurrencyOther.

(** What [PyArg_ParseTupleAndKeywords] with format "OO|OOO" extracts: two
    required and three optional arguments, each of them any object. *)
Record kwargs : Type := Kwargs {
  kw_callable : callable;
  kw_input_family : py_sequence;
  kw_output_products : option py_sequence;
  kw_concurrency : option concurrency_arg;
  kw_name : option attr_value
}.

(** *** The module under construction and the interpreter state *)

Inductive node_kind : Type := TransformNode | ObserverNode.

(** The function object of a node: one of the converters of this file, by
    name, or a [py_callback_N] / [py_callback_Nv] around a Python object. *)
Inductive algorithm : Type :=
| Converter (fn : string)
| PyCallback (arity : nat) (returns_value : bool) (target : N).

Record product_query : Type := ProductQuery { spec : string; layer : string }.

(** A node as declared on [ph_module]; every node of this file is declared
    with [concurrency::serial]. *)
Record node : Type := Node {
  kind : node_kind;
  algorithm_name : string;
  algo : algorithm;
  inputs : list product_query;
  outputs : list string
}.

Record state : Type := State {
  registered : list node;
  error_indicator : option py_error
}.

(** A run either returns, or leaves the language (undefined behaviour, or a
    C++ exception that escapes into the interpreter). *)
Inductive outcome (A : Type) : Type :=
| Ret (a : A) (st : state)
| Crash (why : string).
#[global] Arguments Ret {A} a st.
#[global] Arguments Crash {A} why.

Definition M (A : Type) : Type := state → outcome A.

#[global] Instance M_ret : MRet M := λ A a st, Ret a st.
#[global] Instance M_bind : MBind M := λ A B k m st,
  match m st with
  | Ret a st' => k a st'
  | Crash why => Crash why
  end.

Definition crash {A} (why : string) : M A := λ _, Crash why.

Definition PyErr_SetString (e : exception) (text : string) : M unit :=
  λ st, Ret tt (State (registered st) (Some (PyError e text))).

Definition PyErr_Clear : M unit :=
  λ st, Ret tt (State (registered st) None).

(** A failing call into the interpreter leaves its error [e] set. *)
Definition set_error (e : py_error) : M unit :=
  λ st, Ret tt (State (registered st) (Some e)).

Definition register (n : node) : M unit :=
  λ st, Ret tt (State (registered st ++ [n]) (error_indicator st)).

(** [return nullptr] after setting the error. *)
Definition fail_with {A} (e : exception) (text : string) : M (option A) :=
  PyErr_SetString e text;; mret None.

(** *** Strings *)

(** Lines 59-69. *)
Fixpoint stringify_tail (v : list string) : string :=
  match v with
  | [] => ""
  | x :: v' => ", " +:+ x +:+ stringify_tail v'
  end.

Definition stringify (v : list string) : string :=
  match v with
  | [] => ""
  | x :: v' => x +:+ stringify_tail v'
  end.

(** A byte 10xxxxxx continues a UTF-8 sequence. *)
Definition is_continuation_byte (c : Ascii.ascii) : bool :=
  match c with
  | Ascii.Ascii _ _ _ _ _ _ b6 b7 => b7 && negb b6
  end.

(** [PyUnicode_GetLength]: the number of code points of the text. *)
Fixpoint PyUnicode_GetLength (utf8 : string) : nat :=
  match utf8 with
  | EmptyString => 0
  | String c rest =>
      (if is_continuation_byte c then 0 else 1) + PyUnicode_GetLength rest
  end.

(** [std::string::substr(pos)], for [pos] within the string. *)
Definition substr (pos : nat) (s : string) : string :=
  String.substring pos (String.length s - pos) s.

(** [std::string::rfind]: the last position at which [pat] occurs. *)
Fixpoint rfind_from (pat s : string) (pos : nat) : option nat :=
  match s with
  | EmptyString => if String.prefix pat s then Some pos else None
  | String _ rest =>
      match rfind_from pat rest (S pos) with
      | Some found => Some found
      | None => if String.prefix pat s then Some pos else None
      end
  end.

Definition rfind (pat s : string) : option nat := rfind_from pat s 0.

(** [s.find(pat) != std::string::npos]. *)
Definition finds (pat s : string) : bool :=
  bool_decide (is_Some (String.index 0 pat s)).

(** [s.compare(0, n, pat) == 0] with [n] the length of [pat]. *)
Definition starts_with (pat s : string) : bool := String.prefix pat s.

(** *** cseq, lines 180-204 *)

(** The loop body at index [i] and onwards: entries are assigned until the
    first item that cannot be fetched or is no [str]; that one and the rest
    stay empty.  The message prints the index as an [int], which is the
    index itself for the first 2^31 items. *)
Fixpoint cseq_loop (i : nat) (items : list seq_item) : M (list string) :=
  match items with
  | [] => mret []
  | ItemText utf8 :: rest =>
      tail ← cseq_loop (S i) rest;
      mret (String.substring 0 (PyUnicode_GetLength utf8) utf8 :: tail)
  | ItemOther :: rest =>
      PyErr_SetString TypeError
        ("could not convert item " +:+ pretty i +:+ " to string");;
      mret (replicate (S (length rest)) "")
  | ItemFails e :: rest =>
      set_error e;;
      mret (replicate (S (length rest)) "")
  end.

(** Lines 182-183: for a null pointer the length is 0; a failing
    [PySequence_Size] returns -1, which as [size_t] is more elements than
    a vector can hold, and the constructor of [cargs] throws. *)
Definition cseq (coll : option py_sequence) : M (list string) :=
  match coll with
  | Some (Sequence items) => cseq_loop 0 items
  | Some _ => crash "std::length_error from std::vector"
  | None => mret []
  end.

(** *** annotation_as_text, lines 210-248 *)

(** [PyObject_Str] followed by [PyUnicode_AsUTF8] and [Py_DECREF]: when
    [str()] raises, both are handed a null pointer. *)
Definition PyObject_Str (str : option string) : M string :=
  match str with
  | Some utf8 => mret utf8
  | None => crash "null pointer from PyObject_Str"
  end.

Definition annotation_as_text (pyobj : annotation) : M string :=
  match pyobj with
  | AnnObject name_attr str =>
      ann ← match name_attr with
            | Some (AttrText utf8) => mret utf8
            | Some AttrOther =>
                PyErr_SetString TypeError "bad argument type for built-in operation";;
                mret ""
            | None => PyErr_Clear;; PyObject_Str str
            end;
      if negb (String.eqb ann "ndarray") && negb (String.eqb ann "list")
      then mret ann
      else PyObject_Str str
  | AnnUnicode (Some utf8) => mret utf8
  | AnnUnicode None => PyErr_Clear;; mret ""
  end.

(** *** parse_args, lines 739-866 *)

(** The five output parameters of [parse_args] and the callable it returns. *)
Record parsed : Type := Parsed {
  target : N;
  functor_name : string;
  input_labels : list string;
  input_types : list string;
  output_labels : list string;
  output_types : list string
}.

Definition PySequence_Check (o : py_sequence) : bool :=
  match o with
  | Sequence _ | Unsized => true
  | NotSequence => false
  end.

(** Lines 803-814: [__annotations__] of the callable, else of its
    [__call__]; a failed lookup leaves its AttributeError set, except the
    first, which is cleared. *)
Definition get_annotations (c : callable) : M (option annotations_object) :=
  match dunder_annotations c with
  | Some annot => mret (Some annot)
  | None =>
      PyErr_Clear;;
      match dunder_call c with
      | Some (Some annot) => mret (Some annot)
      | Some None => PyErr_SetString AttributeError "__annotations__";; mret None
      | None => PyErr_SetString AttributeError "__call__";; mret None
      end
  end.

Definition is_return_key (key : dict_key) : bool :=
  match key with
  | KeyText utf8 => String.eqb utf8 "return"
  | KeyOther _ => false
  end.

Definition PyDict_GetItemString (entries : list (dict_key * annotation))
    (key : string) : option annotation :=
  snd <$> List.find
            (λ e, match e.1 with
                  | KeyText utf8 => String.eqb utf8 key
                  | KeyOther _ => false
                  end) entries.

(** Lines 829-835: the [PyDict_Next] loop. *)
Fixpoint input_types_loop (entries : list (dict_key * annotation)) : M (list string) :=
  match entries with
  | [] => mret []
  | (key, val) :: rest =>
      if is_return_key key then input_types_loop rest
      else
        t ← annotation_as_text val;
        ts ← input_types_loop rest;
        mret (t :: ts)
  end.

(** Lines 816-836: the output types, then the input types. *)
Definition collect_types (annot : option annotations_object)
    : M (list string * list string) :=
  match annot with
  | Some (AnnotDict (e :: es)) =>
      outs ← match PyDict_GetItemString (e :: es) "return" with
             | Some ret => t ← annotation_as_text ret; mret [t]
             | None => mret []
             end;
      ins ← input_types_loop (e :: es);
      mret (outs, ins)
  | _ => mret ([], [])
  end.

Definition mismatch_message (labels types : list string) : string :=
  "number of inputs (" +:+ pretty (length labels) +:+ "; " +:+ stringify labels
  +:+ ") does not match number of annotation types ("
  +:+ pretty (length types) +:+ "; " +:+ stringify types +:+ ")".

(** [args = None] stands for a call that [PyArg_ParseTupleAndKeywords]
    rejects; the parser sets the error, whose text is its own and depends
    on what is wrong with the arguments (the text below is a stand-in).
    Line 779 builds [functor_name] from [PyUnicode_AsUTF8(pyname)] without
    a check: from a null pointer no [std::string] can be built. *)
Definition parse_args (args : option kwargs) : M (option parsed) :=
  match args with
  | None => fail_with TypeError "function missing required argument"
  | Some kw =>
    let callable := kw_callable kw in
    match kw_concurrency kw with
    | Some ConcurrencyOther =>
        fail_with TypeError "only serial concurrency is supported"
    | _ =>
    if negb (callable_check callable)
    then fail_with TypeError "provided algorithm is not callable"
    else
    match (match kw_name kw with
           | Some n => Some n
           | None => dunder_name callable
           end) with
    | None => fail_with AttributeError "__name__"
    | Some AttrOther => crash "std::string from a null pointer"
    | Some (AttrText name) =>
    if negb (PySequence_Check (kw_input_family kw))
       || negb (from_option PySequence_Check true (kw_output_products kw))
    then fail_with TypeError "input and output need to be sequences"
    else
      labels ← cseq (Some (kw_input_family kw));
      out_labels ← cseq (kw_output_products kw);
      if bool_decide (1 < length out_labels)
      then fail_with TypeError "only a single output supported"
      else
        annot ← get_annotations callable;
        '(outs, ins) ← collect_types annot;
        let outs := if bool_decide (outs = ["None"]) then [] else outs in
        if bool_decide (length ins ≠ length labels)
        then fail_with TypeError (mismatch_message labels ins)
        else
          wrapped ← match phlex_callable callable with
                    | Some w => mret w
                    | None => PyErr_Clear;; mret (object_id callable)
                    end;
          mret (Some (Parsed wrapped name labels ins out_labels outs))
    end
    end
  end.

(** *** Converter nodes, lines 729-737 and 868-963 *)

Definition transform (name : string) (fn : algorithm) (ins : list string)
    (out : string) : M unit :=
  register (Node TransformNode name fn ((λ i, ProductQuery i LAYER) <$> ins) [out]).

Definition observe (name : string) (fn : algorithm) (ins : list string) : M unit :=
  register (Node ObserverNode name fn ((λ i, ProductQuery i LAYER) <$> ins) []).

Definition INSERT_INPUT_CONVERTER (name alg inp : string) : M unit :=
  transform ("py" +:+ name +:+ "_" +:+ inp +:+ "_" +:+ alg)
    (Converter (name +:+ "_to_py")) [inp] (alg +:+ "_" +:+ inp +:+ "py").

Definition INSERT_OUTPUT_CONVERTER (name alg outp : string) : M unit :=
  transform (name +:+ "py_" +:+ outp +:+ "_" +:+ alg)
    (Converter ("py_to_" +:+ name)) ["py" +:+ outp +:+ "_" +:+ alg] outp.

(** The double quote of the formatted messages. *)
Definition dquote : string := String (Ascii.ascii_of_nat 34) EmptyString.

Definition quoted (s : string) : string := dquote +:+ s +:+ dquote.

(** One turn of the loop of [insert_input_converters]. *)
Definition insert_input_converter (cname inp inp_type : string) : M bool :=
  let basic name := INSERT_INPUT_CONVERTER name cname inp;; mret true in
  if String.eqb inp_type "bool" then basic "bool"
  else if String.eqb inp_type "int" then basic "int"
  else if String.eqb inp_type "unsigned int" then basic "uint"
  else if String.eqb inp_type "long" then basic "long"
  else if String.eqb inp_type "unsigned long" then basic "ulong"
  else if String.eqb inp_type "float" then basic "float"
  else if String.eqb inp_type "double" then basic "double"
  else if starts_with "numpy.ndarray" inp_type then
    match rfind "numpy.dtype" inp_type with
    | None =>
        PyErr_SetString TypeError
          ("could not determine dtype of input type " +:+ quoted inp_type);;
        mret false
    | Some pos =>
        let suffix := substr pos inp_type in
        if finds "uint32]]" suffix then basic "vuint"
        else if finds "int32]]" suffix then basic "vint"
        else if finds "uint64]]" suffix then basic "vulong"
        else if finds "int64]]" suffix then basic "vlong"
        else if finds "float32]]" suffix then basic "vfloat"
        else if finds "float64]]" suffix then basic "vdouble"
        else
          PyErr_SetString TypeError
            ("unsupported array input type " +:+ quoted inp_type);;
          mret false
    end
  else if String.eqb inp_type "list[int]" then basic "vint"
  else if String.eqb inp_type "list[float]" then basic "vfloat"
  else if String.eqb inp_type "list[double]" || String.eqb inp_type "list['double']"
  then basic "vdouble"
  else
    PyErr_SetString TypeError ("unsupported input type " +:+ quoted inp_type);;
    mret false.

(** The loop over [i]; [input_types[i]] past the end has no defined value. *)
Fixpoint insert_input_converters_loop (cname : string) (types : list string)
    (i : nat) (labels : list string) : M bool :=
  match labels with
  | [] => mret true
  | inp :: rest =>
      match types !! i with
      | None => crash "input_types[i] out of range"
      | Some inp_type =>
          ok ← insert_input_converter cname inp inp_type;
          if ok : bool then insert_input_converters_loop cname types (S i) rest
          else mret false
      end
  end.

Definition insert_input_converters (cname : string) (labels types : list string)
    : M bool :=
  insert_input_converters_loop cname types 0 labels.

(** *** md_transform, lines 965-1102 *)

(** [Py_RETURN_NONE]. *)
Definition Py_RETURN_NONE : M (option unit) := mret (Some tt).

(** The product name under which converter nodes hand an input over. *)
Definition py_input (cname label : string) : string :=
  cname +:+ "_" +:+ label +:+ "py".

(** Lines 993-1017 ([returns_value = true]) and 1125-1146 ([false]): the
    node around the Python callable, by number of inputs. *)
Definition register_callback (returns_value : bool) (cname : string)
    (callable : N) (labels : list string) (py_out : string) : M bool :=
  let declare arity :=
    if returns_value
    then transform cname (PyCallback arity true callable)
           (py_input cname <$> labels) py_out
    else observe cname (PyCallback arity false callable)
           (py_input cname <$> labels) in
  match labels with
  | [_] => declare 1;; mret true
  | [_; _] => declare 2;; mret true
  | [_; _; _] => declare 3;; mret true
  | _ => PyErr_SetString TypeError "unsupported number of inputs";; mret false
  end.

(** The converter node of a vector output (lines 1049-1076, 1081-1095). *)
Definition vector_output_converter (name cname output : string) : M (option unit) :=
  transform ("py" +:+ name +:+ "_" +:+ output +:+ "_" +:+ cname)
    (Converter ("py_to_" +:+ name)) ["py" +:+ output +:+ "_" +:+ cname] output;;
  Py_RETURN_NONE.

(** Lines 1021-1101. *)
Definition insert_output_converter (cname output output_type : string)
    : M (option unit) :=
  let basic name := INSERT_OUTPUT_CONVERTER name cname output;; Py_RETURN_NONE in
  if String.eqb output_type "bool" then basic "bool"
  else if String.eqb output_type "int" then basic "int"
  else if String.eqb output_type "unsigned int" then basic "uint"
  else if String.eqb output_type "long" then basic "long"
  else if String.eqb output_type "unsigned long" then basic "ulong"
  else if String.eqb output_type "float" then basic "float"
  else if String.eqb output_type "double" then basic "double"
  else if starts_with "numpy.ndarray" output_type then
    match rfind "numpy.dtype" output_type with
    | None =>
        fail_with TypeError
          ("could not determine dtype of input type " +:+ quoted output_type)
    | Some found =>
        let pos := found + 18 in
        if bool_decide (String.length output_type < pos)
        then crash "std::out_of_range from std::string::compare"
        else
          let rest := substr pos output_type in
          if String.eqb rest "int32]]" then vector_output_converter "vint" cname output
          else if String.eqb rest "uint32]]" then vector_output_converter "vuint" cname output
          else if String.eqb rest "int64]]" then vector_output_converter "vlong" cname output
          else if String.eqb rest "uint64]]" then vector_output_converter "vulong" cname output
          else if String.eqb rest "float32]]" then vector_output_converter "vfloat" cname output
          else if String.eqb rest "float64]]" then vector_output_converter "vdouble" cname output
          else
            fail_with TypeError
              ("unsupported array output type " +:+ quoted output_type)
    end
  else if String.eqb output_type "list[int]"
  then vector_output_converter "vint" cname output
  else if String.eqb output_type "list[float]"
  then vector_output_converter "vfloat" cname output
  else if String.eqb output_type "list[double]" || String.eqb output_type "list['double']"
  then vector_output_converter "vdouble" cname output
  else fail_with TypeError ("unsupported output type " +:+ quoted output_type).

(** [None] is the null pointer, [Some tt] is [Py_None]. *)
Definition md_transform (args : option kwargs) : M (option unit) :=
  callable ← parse_args args;
  match callable with
  | None => mret None
  | Some p =>
    if bool_decide (output_types p = [])
    then fail_with TypeError "a transform should have an output type"
    else
      match output_labels p !! 0, output_types p !! 0 with
      | Some output, Some output_type =>
          ok ← insert_input_converters (functor_name p) (input_labels p) (input_types p);
          if negb ok then mret None
          else
            let py_out := "py" +:+ output +:+ "_" +:+ functor_name p in
            declared ← register_callback true (functor_name p) (target p)
                         (input_labels p) py_out;
            if negb declared then mret None
            else insert_output_converter (functor_name p) output output_type
      | _, _ => crash "output_labels[0] out of range"
      end
  end.

(** *** md_observe, lines 1104-1149 *)

Definition md_observe (args : option kwargs) : M (option unit) :=
  callable ← parse_args args;
  match callable with
  | None => mret None
  | Some p =>
    if negb (bool_decide (output_types p = []))
    then fail_with TypeError "an observer should not have an output type"
    else
      ok ← insert_input_converters (functor_name p) (input_labels p) (input_types p);
      if negb ok then mret None
      else
        declared ← register_callback false (functor_name p) (target p)
                     (input_labels p) "";
        if negb declared then mret None
        else Py_RETURN_NONE
  end.

(** *** What a callable is annotated with *)

(** The annotation entries registration reads: the [__annotations__] dict of
    the callable if it has that attribute, else that of its [__call__]. *)
Definition annotations_of (c : callable) : list (dict_key * annotation) :=
  match (match dunder_annotations c with
         | Some annot => Some annot
         | None => mjoin (dunder_call c)
         end) with
  | Some (AnnotDict entries) => entries
  | _ => []
  end.

(** The type an annotation stands for: a [str] as it is; otherwise the
    [__name__] of the object, or its [str()] when it has no [__name__] or
    is named "ndarray" or "list". *)
Definition annotation_text (a : annotation) : string :=
  match a with
  | AnnUnicode utf8 => default "" utf8
  | AnnObject (Some (AttrText name)) str =>
      if String.eqb name "ndarray" || String.eqb name "list"
      then default "" str else name
  | AnnObject (Some AttrOther) _ => ""
  | AnnObject None str => default "" str
  end.

(** The annotated return type, if any. *)
Definition annotated_return (c : callable) : option string :=
  annotation_text <$> PyDict_GetItemString (annotations_of c) "return".

(** The annotated input types, in order. *)
Definition annotated_inputs (c : callable) : list string :=
  (λ e, annotation_text e.2)
    <$> List.filter (λ e, negb (is_return_key e.1)) (annotations_of c).

(** The number of declared input labels. *)
Definition declared_inputs (kw : kwargs) : nat :=
  match kw_input_family kw with
  | Sequence items => length items
  | _ => 0
  end.


(** *** Sample arguments *)

(** The class [int] as an annotation. *)
Definition int_class : annotation :=
  AnnObject (Some (AttrText "int")) (Some "<class 'int'>").

(** [def add(i: int, j: int) -> int]. *)
Definition typed_add : callable :=
  Callable 1 true (Some (AttrText "add"))
    (Some (AnnotDict [(KeyText "i", int_class); (KeyText "j", int_class);
                      (KeyText "return", int_class)]))
    (Some None) None.

(** [def check(i: int) -> None]. *)
Definition typed_check : callable :=
  Callable 2 true (Some (AttrText "check"))
    (Some (AnnotDict [(KeyText "i", int_class);
                      (KeyText "return", AnnObject None (Some "None"))]))
    (Some None) None.

Definition labels (names : list string) : py_sequence :=
  Sequence (ItemText <$> names).

Definition empty_module : state := State [] None.

(** [m], run from [st], returns a value and a state that satisfy [Q]. *)
Definition returns {A} (m : M A) (st : state) (Q : A → state → Prop) : Prop :=
  match m st with
  | Ret a st' => Q a st'
  | Crash _ => False
  end.

(** [m], run from [st], returns a value and a state that satisfy [Q], or it
    leaves the language, and then [C] holds. *)
Definition runs {A} (m : M A) (st : state) (Q : A → state → Prop) (C : Prop)
    : Prop :=
  match m st with
  | Ret a st' => Q a st'
  | Crash _ => C
  end.

(** The types [parse_args] hands back as output types: the annotated
    return type, unless there is none or it reads "None". *)
Definition expected_output_types (c : callable) : list string :=
  match annotated_return c with
  | Some t => if bool_decide (t = "None") then [] else [t]
  | None => []
  end.

(** [m], run from [st], satisfies [Q] if it returns at all. *)
Definition ensures {A} (m : M A) (st : state) (Q : A → state → Prop) : Prop :=
  match m st with
  | Ret a st' => Q a st'
  | Crash _ => True
  end.

(** What [cseq] keeps of a [str] item: as many bytes of its UTF-8 text as
    the text has code points. *)
Definition cut (utf8 : string) : string :=
  String.substring 0 (PyUnicode_GetLength utf8) utf8.

(** The labels [cseq] returns for a sequence: the texts up to the first
    item that cannot be fetched or is no [str], empty strings from there
    on. *)
Fixpoint labels_of (items : list seq_item) : list string :=
  match items with
  | [] => []
  | ItemText utf8 :: rest => cut utf8 :: labels_of rest
  | _ :: rest => replicate (S (length rest)) ""
  end.

(** The items of an argument that has a length. *)
Definition sequence_items (o : py_sequence) : option (list seq_item) :=
  match o with
  | Sequence items => Some items
  | _ => None
  end.

Definition has_length (o : py_sequence) : bool :=
  bool_decide (is_Some (sequence_items o)).


(** The object that names the algorithm: the [name] argument, else the
    [__name__] of the callable. *)
Definition name_object (kw : kwargs) : option attr_value :=
  match kw_name kw with
  | Some n => Some n
  | None => dunder_name (kw_callable kw)
  end.

(** The name under which an algorithm is registered: the text of that
    object, when it is a [str]. *)
Definition algorithm_name_of (kw : kwargs) : option string :=
  match name_object kw with
  | Some (AttrText name) => Some name
  | _ => None
  end.

(** The number of declared output labels. *)
Definition declared_outputs (kw : kwargs) : nat :=
  match kw_output_products kw with
  | Some (Sequence items) => length items
  | _ => 0
  end.

(** Whether [annotation_as_text] can print an annotation: an object
    without [__name__], or one named "ndarray" or "list", is printed with
    its [str()], which must not raise. *)
Definition printable (a : annotation) : bool :=
  match a with
  | AnnObject (Some (AttrText name)) str =>
      if String.eqb name "ndarray" || String.eqb name "list"
      then bool_decide (is_Some str) else true
  | AnnObject None str => bool_decide (is_Some str)
  | _ => true
  end.

(** The annotations [parse_args] prints: the one under "return", then
    those of every entry whose key is not "return". *)
Definition printed_annotations (c : callable) : list annotation :=
  option_list (PyDict_GetItemString (annotations_of c) "return")
  ++ (snd <$> List.filter (λ e, negb (is_return_key e.1)) (annotations_of c)).

(** The first two checks of [parse_args]: the concurrency argument is
    absent or None, and the algorithm is callable. *)
Definition serial_callable (kw : kwargs) : bool :=
  match kw_concurrency kw with Some ConcurrencyOther => false | _ => true end
  && callable_check (kw_callable kw).

(** The calls [parse_args] lets through, told from the arguments alone. *)
Definition acceptable (kw : kwargs) : bool :=
  serial_callable kw
  && bool_decide (is_Some (algorithm_name_of kw))
  && has_length (kw_input_family kw)
  && from_option has_length true (kw_output_products kw)
  && bool_decide (declared_outputs kw ≤ 1)
  && forallb printable (printed_annotations (kw_callable kw))
  && bool_decide (length (annotated_inputs (kw_callable kw)) = declared_inputs kw).

(** The calls on which [parse_args] has no defined behaviour, told from the
    arguments alone: past the first two checks, the name is an object of
    which [PyUnicode_AsUTF8] returns the null pointer; or, with a name and
    arguments that pass [PySequence_Check], the inputs or the outputs have
    no length, or there is at most one output label and an annotation that
    cannot be printed. *)
Definition undefined_call (kw : kwargs) : bool :=
  serial_callable kw
  && match name_object kw with
     | None => false
     | Some AttrOther => true
     | Some (AttrText _) =>
         PySequence_Check (kw_input_family kw)
         && from_option PySequence_Check true (kw_output_products kw)
         && (negb (has_length (kw_input_family kw))
             || negb (from_option has_length true (kw_output_products kw))
             || bool_decide (declared_outputs kw ≤ 1)
                && negb (forallb printable (printed_annotations (kw_callable kw))))
     end.

(** The type names with a scalar converter. *)
Definition scalar_types : list string :=
  ["bool"; "int"; "unsigned int"; "long"; "unsigned long"; "float"; "double"].

(** The query registration makes for a product name. *)
Definition query (name : string) : product_query := ProductQuery name LAYER.

(** The input labels of a call, as [cseq] reads them. *)
Definition labels_of_call (kw : kwargs) : list string :=
  from_option labels_of [] (sequence_items (kw_input_family kw)).

(** The output labels of a call, as [cseq] reads them. *)
Definition output_labels_of_call (kw : kwargs) : list string :=
  from_option labels_of [] (kw_output_products kw ≫= sequence_items).

(** The node registration declares around the Python callable. *)
Definition callback_node (returns_value : bool) (kw : kwargs) (name : string)
    (py_out : list string) : node :=
  Node (if returns_value then TransformNode else ObserverNode) name
    (PyCallback (length (labels_of_call kw)) returns_value
       (default (object_id (kw_callable kw)) (phlex_callable (kw_callable kw))))
    (query <$> (py_input name <$> labels_of_call kw)) py_out.

(** [convs] are converter nodes for the labels [ls] of the algorithm
    [cname]: transforms, the i-th reading the product [ls !! i] and writing
    the product the Python node reads for it. *)
Definition converters_for (cname : string) (ls : list string) (convs : list node)
    : Prop :=
  Forall2 (λ l c, kind c = TransformNode ∧ inputs c = [query l]
                  ∧ outputs c = [py_input cname l]) ls convs.

End ModuleWrap.

(* ===================================================================== *)
(** ** plugins/python/src/modulewrap.cpp: the value converters            *)
(* ===================================================================== *)

Module Converters.

Inductive exception : Type := TypeError | ValueError | OverflowError.

Record py_error : Type := PyError { exc_type : exception; exc_text : string }.

(** The Python objects the converters are handed, never a null pointer:
    the callback node that produces them throws instead of returning one.
    A [bool] is an [int] (0 or 1) for every function used here.  The
    numbers of an array are its buffer read as the C element type of the
    converter. *)
#[local] Unset Elimination Schemes.
Inductive pyobject : Type :=
| PyLong (z : Z)
| PyFloat
| PyIndexable (z : Z)
| PyList (items : list pyobject)
| PyArray (dims : list Z) (data : list Z)
| PyOther.
#[local] Set Elimination Schemes.

(** A converter runs on the error indicator; [None] as a result is a read
    past the end of a buffer. *)
Definition P (A : Type) : Type := option py_error → option (A * option py_error).

#[global] Instance P_ret : MRet P := λ A a e, Some (a, e).
#[global] Instance P_bind : MBind P := λ A B k m e,
  match m e with
  | Some (a, e') => k a e'
  | None => None
  end.

Definition PyErr_SetString (x : exception) (text : string) : P unit :=
  λ _, Some (tt, Some (PyError x text)).

Definition PyErr_Clear : P unit := λ _, Some (tt, None).

(** [PyErr_Print] reports the pending error and clears it. *)
Definition PyErr_Print : P unit := λ _, Some (tt, None).

Definition PyErr_Occurred : P bool := λ e, Some (bool_decide (is_Some e), e).

Definition PyLong_Check (o : pyobject) : bool :=
  match o with PyLong _ => true | _ => false end.

Definition PyFloat_Check (o : pyobject) : bool :=
  match o with PyFloat => true | _ => false end.

(** [PyLong_AsLong]: an int, or an object with [__index__], within
    [long]; -1 with OverflowError outside, -1 with TypeError for anything
    else. *)
Definition PyLong_AsLong (o : pyobject) : P Z :=
  match o with
  | PyLong z | PyIndexable z =>
      if bool_decide (CInt.LONG_MIN ≤ z ≤ CInt.LONG_MAX)%Z then mret z
      else PyErr_SetString OverflowError "Python int too large to convert to C long";;
           mret (-1)%Z
  | _ => PyErr_SetString TypeError "an integer is required";; mret (-1)%Z
  end.

(** [PyLong_AsUnsignedLong]: an int within [unsigned long]; [(unsigned
    long)-1] with OverflowError for any other int and with TypeError for
    anything that is no int. *)
Definition PyLong_AsUnsignedLong (o : pyobject) : P Z :=
  match o with
  | PyLong z =>
      if bool_decide (0 ≤ z ≤ CInt.ULONG_MAX)%Z then mret z
      else PyErr_SetString OverflowError "int out of range for C unsigned long";;
           mret CInt.ULONG_MAX
  | _ => PyErr_SetString TypeError "an integer is required";; mret CInt.ULONG_MAX
  end.

(** Lines 254-264; [(bool)-1] is [true]. *)
Definition pylong_as_bool (pyobject : pyobject) : P bool :=
  l ← PyLong_AsLong pyobject;
  if negb ((l =? 0)%Z || (l =? 1)%Z) || PyFloat_Check pyobject
  then PyErr_SetString ValueError "boolean value should be bool, or integer 1 or 0";;
       mret true
  else mret (negb (l =? 0)%Z).

(** Lines 266-274. *)
Definition pylong_as_strictlong (pyobject : pyobject) : P Z :=
  if negb (PyLong_Check pyobject)
  then PyErr_SetString TypeError "int/long conversion expects an integer object";;
       mret (-1)%Z
  else PyLong_AsLong pyobject.

(** Lines 276-297; [PyLong_AS_LONG] is [PyLong_AsLong]. *)
Definition pylong_or_int_as_ulong (pyobject : pyobject) : P Z :=
  if PyFloat_Check pyobject
  then PyErr_SetString TypeError "can't convert float to unsigned long";;
       mret CInt.ULONG_MAX
  else
    ul ← PyLong_AsUnsignedLong pyobject;
    occurred ← PyErr_Occurred;
    if (ul =? CInt.ULONG_MAX)%Z && (occurred : bool) && PyLong_Check pyobject
    then
      PyErr_Clear;;
      i ← PyLong_AsLong pyobject;
      if (0 <=? i)%Z then mret (CInt.ulong i)
      else PyErr_SetString ValueError "can't convert negative value to unsigned long";;
           mret CInt.ULONG_MAX
    else mret ul.

(** The instances of [BASIC_CONVERTER] on integer types (lines 313-328):
    [<name>_to_py] builds the object, [py_to_<name>] converts and casts. *)
Definition bool_to_py (a : bool) : pyobject := PyLong (if a then 1 else 0)%Z.
Definition py_to_bool (pyobj : pyobject) : P bool := pylong_as_bool pyobj.

Definition int_to_py (a : Z) : pyobject := PyLong a.
Definition py_to_int (pyobj : pyobject) : P Z :=
  l ← PyLong_AsLong pyobj; mret (CInt.to_int l).

Definition uint_to_py (a : Z) : pyobject := PyLong a.
Definition py_to_uint (pyobj : pyobject) : P Z :=
  ul ← pylong_or_int_as_ulong pyobj; mret (CInt.uint ul).

Definition long_to_py (a : Z) : pyobject := PyLong a.
Definition py_to_long (pyobj : pyobject) : P Z := pylong_as_strictlong pyobj.

Definition ulong_to_py (a : Z) : pyobject := PyLong a.
Definition py_to_ulong (pyobj : pyobject) : P Z := pylong_or_int_as_ulong pyobj.

(** Lines 365-453: a vector becomes a list of ints, a null vector a null
    object. *)
Definition vector_to_py (v : option (list Z)) : option pyobject :=
  match v with
  | Some elements => Some (PyList (PyLong <$> elements))
  | None => None
  end.

Definition vint_to_py := vector_to_py.
Definition vuint_to_py := vector_to_py.
Definition vlong_to_py := vector_to_py.
Definition vulong_to_py := vector_to_py.

(** The loop over a list (for instance lines 502-514): every item is
    converted and pushed, until an error is pending after a conversion;
    that error is printed, which clears it, and the loop ends. *)
Fixpoint list_loop (convert : pyobject → P Z) (cast : Z → Z)
    (items : list pyobject) : P (list Z) :=
  match items with
  | [] => mret []
  | item :: rest =>
      val ← convert item;
      occurred ← PyErr_Occurred;
      if occurred : bool then PyErr_Print;; mret []
      else tail ← list_loop convert cast rest; mret (cast val :: tail)
  end.

(** [total *= static_cast<size_t>(dims[i])] over all dimensions. *)
Definition array_total (dims : list Z) : Z :=
  foldl (λ total d, CInt.ulong (total * CInt.ulong d)) 1%Z dims.

(** Lines 493-647: [py_to_vint] and its three siblings differ in the
    conversion and in the cast only. *)
Definition py_to_vector (convert : pyobject → P Z) (cast : Z → Z)
    (pyobj : option pyobject) : P (list Z) :=
  match pyobj with
  | Some (PyList items) => list_loop convert cast items
  | Some (PyArray dims data) =>
      let total := Z.to_nat (array_total dims) in
      if bool_decide (total ≤ length data) then mret (take total data)
      else λ _, None
  | _ => mret []
  end.

Definition py_to_vint := py_to_vector PyLong_AsLong CInt.to_int.
Definition py_to_vuint := py_to_vector PyLong_AsUnsignedLong CInt.uint.
Definition py_to_vlong := py_to_vector PyLong_AsLong (λ z, z).
Definition py_to_vulong := py_to_vector PyLong_AsUnsignedLong (λ z, z).

(** The ranges of the C types. *)
Definition is_int (z : Z) : Prop := (CInt.INT_MIN ≤ z ≤ CInt.INT_MAX)%Z.
Definition is_uint (z : Z) : Prop := (0 ≤ z < 2 ^ 32)%Z.
Definition is_long (z : Z) : Prop := (CInt.LONG_MIN ≤ z ≤ CInt.LONG_MAX)%Z.
Definition is_ulong (z : Z) : Prop := (0 ≤ z ≤ CInt.ULONG_MAX)%Z.

End Converters.

(* ===================================================================== *)
(** ** Facts about product stores                                         *)
(* ===================================================================== *)

Section product_store_facts.
Import ProductStore.

Lemma chain_unfold (s : product_store) : chain s = s :: ancestors s.
Proof. by destruct s as [[up|] pr i src st]. Qed.

Lemma store_for_product_loop_find (s : product_store) (n : string) :
  store_for_product_loop s n
  = List.find (λ t, contains_product t n) (chain s).
Proof.
  induction s as [pr i src st|up pr i src st IH] using product_store_chain_ind;
    cbn [store_for_product_loop chain List.find];
    destruct (contains_product _ n); auto.
Qed.

Lemma parent_loop_find (s : product_store) (L : string) :
  parent_loop s L = List.find (λ t, String.eqb (level_name t) L) (chain s).
Proof.
  induction s as [pr i src st|up pr i src st IH] using product_store_chain_ind;
    cbn [parent_loop chain List.find];
    destruct (String.eqb _ L); auto.
Qed.

(** What [List.find] returning an element means: it is the first one, by
    position, that satisfies the test. *)
Lemma find_first {A} (f : A → bool) (l : list A) (x : A) :
  List.find f l = Some x ↔
  ∃ k, l !! k = Some x ∧ f x = true ∧ ∀ j y, j < k → l !! j = Some y → f y = false.
Proof.
  induction l as [|a l IH]; cbn [List.find].
  - split; [done | by intros (k & Hk & _)].
  - destruct (f a) eqn:Ha.
    + split.
      * intros [= <-]. exists 0. split_and!; [done | done | lia].
      * intros (k & Hk & Hx & Hmin). destruct k as [|k].
        -- by injection Hk as ->.
        -- specialize (Hmin 0 a ltac:(lia) eq_refl). congruence.
    + rewrite IH. split.
      * intros (k & Hk & Hx & Hmin). exists (S k). split_and!; [done | done |].
        intros [|j] y Hj Hy; [by injection Hy as <- | apply (Hmin j); [lia | done]].
      * intros (k & Hk & Hx & Hmin). destruct k as [|k].
        -- injection Hk as ->. congruence.
        -- exists k. split_and!; [done | done |].
           intros j y Hj Hy. apply (Hmin (S j)); [lia | done].
Qed.

Lemma find_none {A} (f : A → bool) (l : list A) :
  List.find f l = None ↔ ∀ x, x ∈ l → f x = false.
Proof.
  induction l as [|a l IH]; cbn [List.find].
  - split; [intros _ x Hx; by apply elem_of_nil in Hx | done].
  - destruct (f a) eqn:Ha.
    + split; [done | intros H; specialize (H a ltac:(left)); congruence].
    + rewrite IH. split.
      * intros H x [->|Hx]%elem_of_cons; auto.
      * intros H x Hx. apply H. by right.
Qed.

(** Every store of the chain of [s] has a chain no longer than that of [s]. *)
Lemma chain_length_le (s t : product_store) :
  t ∈ chain s → length (chain t) ≤ length (chain s).
Proof.
  induction s as [pr i src st|up pr i src st IH] using product_store_chain_ind;
    cbn [chain]; intros [->|Ht]%elem_of_cons; cbn [chain length]; try lia.
  - by apply elem_of_nil in Ht.
  - specialize (IH Ht). lia.
Qed.

(** A store is not among its own proper ancestors. *)
Lemma not_own_ancestor (s : product_store) : s ∉ ancestors s.
Proof.
  intros Hs. pose proof (chain_unfold s) as Hchain.
  unfold ancestors in *. destruct (parent_ s) as [up|]; [|by apply elem_of_nil in Hs].
  apply chain_length_le in Hs. rewrite Hchain in Hs. cbn [length] in Hs. lia.
Qed.

End product_store_facts.

(* ===================================================================== *)
(** ** Theorems: product stores                                           *)
(* ===================================================================== *)

Section product_store_theorems.
Import ProductStore.

(** C2, as the spec words it, at a flush store: the continuation of the
    flush marker of the base store does not keep the stage (it is a
    process store), so "same id, same parent and same stage" fails. *)
Lemma make_continuation_stage_counterexample :
  let s := make_flush base in
  let c := make_continuation s "add" ∅ in
  ¬ (id c = id s ∧ parent c = parent s ∧ stage_ c = stage_ s).
Proof. cbn. intros (_ & _ & [=]). Qed.

(** C2 (amended): for every store [s], source label and product set,
    [make_continuation] keeps the id and the parent of [s], carries the
    given source and products, and its stage is always [process]; the
    stage therefore equals that of [s] exactly when [s] is not a flush
    store. *)
Theorem make_continuation_frame (s : product_store) (src : string)
    (p : gmap string Products.product) :
  let c := make_continuation s src p in
  id c = id s ∧ parent c = parent s ∧ stage_ c = process ∧
  source c = src ∧ products_ c = p ∧
  (stage_ c = stage_ s ↔ is_flush s = false).
Proof.
  cbn. split_and!; try done.
  unfold is_flush. destruct (stage_ s); cbn; split; congruence.
Qed.

(** C3: for every store [s], [make_flush s] is a flush store with the id
    and the parent of [s], and it contains no product whatever the name. *)
Theorem make_flush_spec (s : product_store) :
  let f := make_flush s in
  is_flush f = true ∧ id f = id s ∧ parent f = parent s ∧
  ∀ n : string, contains_product f n = false.
Proof.
  cbn zeta. split_and!; [done | done | done |].
  intros n. unfold contains_product, Products.contains, make_flush, new_store.
  cbn [products_]. apply bool_decide_eq_false.
  unfold Products.default_products. rewrite lookup_empty. by intros [? ?].
Qed.

(** C5: [store_for_product s n] is the nearest store on the chain that
    starts at [s] itself and ends at the root whose own products contain
    [n] (every store strictly nearer lacks [n]), and it is null exactly
    when no store of that chain contains [n]. *)
Theorem store_for_product_nearest (s : product_store) (n : string) :
  chain s !! 0 = Some s ∧
  (∀ t, store_for_product s n = Some t ↔
        ∃ k, chain s !! k = Some t ∧ contains_product t n = true ∧
             ∀ j u, j < k → chain s !! j = Some u → contains_product u n = false) ∧
  (store_for_product s n = None ↔
   ∀ t, t ∈ chain s → contains_product t n = false).
Proof.
  unfold store_for_product. rewrite store_for_product_loop_find.
  split_and!.
  - by rewrite chain_unfold.
  - intros t. apply (find_first (λ u, contains_product u n)).
  - apply (find_none (λ u, contains_product u n)).
Qed.

(** C6: [parent_of_level s L] (the C++ [s.parent(L)]) is the nearest
    proper ancestor of [s], the search starting at the parent of [s] and
    leaving [s] itself out, whose level name is [L]; it is null exactly
    when no proper ancestor has that level name. *)
Theorem parent_of_level_nearest (s : product_store) (L : string) :
  chain s = s :: ancestors s ∧
  head (ancestors s) = parent s ∧
  (s ∉ ancestors s) ∧
  (∀ t, parent_of_level s L = Some t ↔
        ∃ k, ancestors s !! k = Some t ∧ level_name t = L ∧
             ∀ j u, j < k → ancestors s !! j = Some u → level_name u ≠ L) ∧
  (parent_of_level s L = None ↔
   ∀ t, t ∈ ancestors s → level_name t ≠ L).
Proof.
  assert (Hfind : parent_of_level s L
                  = List.find (λ t, String.eqb (level_name t) L) (ancestors s)).
  { unfold parent_of_level, ancestors. destruct (parent_ s) as [up|]; [|done].
    apply parent_loop_find. }
  split_and!.
  - apply chain_unfold.
  - unfold ancestors, parent. destruct (parent_ s) as [up|]; [|done].
    by rewrite chain_unfold.
  - apply not_own_ancestor.
  - intros t. rewrite Hfind, find_first. split.
    + intros (k & Hk & Ht & Hmin). exists k. split_and!; [done | by apply String.eqb_eq |].
      intros j u Hj Hu. apply String.eqb_neq. by apply (Hmin j).
    + intros (k & Hk & Ht & Hmin). exists k. split_and!; [done | by apply String.eqb_eq |].
      intros j u Hj Hu. apply String.eqb_neq. by apply (Hmin j).
  - rewrite Hfind, find_none. split.
    + intros H t Ht. apply String.eqb_neq. by apply H.
    + intros H t Ht. apply String.eqb_neq. by apply H.
Qed.

(** C7: the child made by [make_child s n L source products] has the id
    [make_child n L] of the id of [s], one level deeper than [s]; its
    parent is [s] and its stage is [process]. *)
Theorem make_child_spec (s : product_store) (n : N) (L src : string)
    (p : gmap string Products.product) :
  let c := make_child s n L src p in
  id c = LevelId.make_child (id s) n L ∧
  LevelId.depth (id c) = LevelId.depth (id s) + 1 ∧
  parent c = Some s ∧
  stage_ c = process.
Proof.
  cbn. split_and!; try done.
  unfold LevelId.depth, LevelId.make_child, id. by rewrite length_app.
Qed.

(** C10: [more_derived a b] is [a] when the id of [a] is strictly deeper
    than the id of [b], and [b] otherwise; at equal depths it is the
    second argument. *)
Theorem more_derived_spec (a b : product_store) :
  (LevelId.depth (id b) < LevelId.depth (id a) → more_derived a b = a) ∧
  (LevelId.depth (id a) ≤ LevelId.depth (id b) → more_derived a b = b) ∧
  (LevelId.depth (id a) = LevelId.depth (id b) → more_derived a b = b).
Proof.
  unfold more_derived. split_and!; intros H.
  - by rewrite bool_decide_eq_true_2.
  - rewrite bool_decide_eq_false_2; [done | lia].
  - rewrite bool_decide_eq_false_2; [done | lia].
Qed.

(** The three cases of C10 at the base store and one of its children. *)
Lemma more_derived_spec_witness :
  let cell := make_child base 3 "cell" "driver" ∅ in
  let flushed := make_flush cell in
  more_derived cell base = cell ∧
  more_derived base cell = cell ∧
  more_derived cell flushed = flushed.
Proof.
  cbn zeta. split_and!.
  - apply (proj1 (more_derived_spec _ _)). cbn. lia.
  - apply (proj1 (proj2 (more_derived_spec _ _))). cbn. lia.
  - apply (proj2 (proj2 (more_derived_spec _ _))). reflexivity.
Defined.

End product_store_theorems.

(* ===================================================================== *)
(** ** Theorems: the output node                                          *)
(* ===================================================================== *)

Section declared_output_theorems.
Import ProductStore DeclaredOutput.
Context {W : Type}.

(** C4: on every message delivered to an output node, the user callable is
    invoked if and only if the store of the message is not a flush store.
    On a store that is no flush store it is invoked exactly once, on that
    store and on the back end as the message finds it: the back end
    afterwards is the one the callable leaves, and the body completes with
    [continue_msg] when the callable returns and throws what the callable
    throws.  On a flush message the body completes with [continue_msg], no
    invocation is made and nothing changes, whatever the callable would
    have done. *)
Theorem node_body_invokes_iff_not_flush
    (f : output_function_t (W:=W)) (msg : message) (w : world) :
  let r := node_body f msg w in
  (store msg ∈ invocations w r.2 ↔ is_flush (store msg) = false) ∧
  (is_flush (store msg) = false →
     invocations w r.2 = [store msg]
     ∧ invoked r.2 = invoked w ++ [store msg]
     ∧ backend r.2 = (f (store msg) (backend w)).2
     ∧ r.1 = match (f (store msg) (backend w)).1 with
             | Returns _ => Returns ContinueMsg
             | Throws what => Throws what
             end) ∧
  (is_flush (store msg) = true →
     invocations w r.2 = [] ∧ r = (Returns ContinueMsg, w)).
Proof.
  cbn zeta. unfold node_body, body_bind, call, body_ret, invocations.
  destruct (is_flush (store msg)) eqn:Hflush; cbn [negb].
  - cbn. rewrite drop_all. split_and!; [|done|done].
    split; [by intros ?%elem_of_nil | done].
  - destruct (f (store msg) (backend w)) as [[[]|e] b]; cbn;
      rewrite drop_app_length; (split_and!; [|done|done]);
      (split; [done | intros _; by apply list_elem_of_singleton]).
Qed.

End declared_output_theorems.

(** C4 with a back end that counts the records written and a callable
    that writes one and then throws: on a flush marker the body still
    completes, the callable is not invoked and the count stays 0; on the
    root store the callable is invoked once, the count is 1 and the body
    throws what the callable threw. *)
Lemma node_body_invokes_iff_not_flush_witness :
  let f : DeclaredOutput.output_function_t (W:=nat) :=
    λ _ b, (DeclaredOutput.Throws "write failed", S b) in
  let flush := DeclaredOutput.Message (ProductStore.make_flush ProductStore.base) in
  let msg := DeclaredOutput.Message ProductStore.base in
  let w := DeclaredOutput.World 0 [] in
  (DeclaredOutput.invocations w (DeclaredOutput.node_body f flush w).2 = [] ∧
   DeclaredOutput.node_body f flush w
   = (DeclaredOutput.Returns DeclaredOutput.ContinueMsg, w)) ∧
  (DeclaredOutput.invocations w (DeclaredOutput.node_body f msg w).2
   = [ProductStore.base] ∧
   DeclaredOutput.invoked (DeclaredOutput.node_body f msg w).2
   = [ProductStore.base] ∧
   DeclaredOutput.backend (DeclaredOutput.node_body f msg w).2 = 1 ∧
   (DeclaredOutput.node_body f msg w).1 = DeclaredOutput.Throws "write failed").
Proof.
  cbn zeta. split.
  - apply (proj2 (proj2 (node_body_invokes_iff_not_flush _ _ _))).
    reflexivity.
  - apply (proj1 (proj2 (node_body_invokes_iff_not_flush
                           (λ _ b, (DeclaredOutput.Throws "write failed", S b))
                           (DeclaredOutput.Message ProductStore.base)
                           (DeclaredOutput.World 0 [])))).
    reflexivity.
Defined.

(* ===================================================================== *)
(** ** Theorems: the test plugins                                         *)
(* ===================================================================== *)

Section plugin_theorems.
Import LevelId Plugins.




(** C8, as the spec words it, at the largest [int]: [plus_one] has no
    defined result there (the sum is not an [int]), so it does not return
    a + 1 for every integer input. *)
Lemma plus_one_overflow_counterexample :
  let a := 2147483647%Z in
  CInt.representable a = true ∧
  plus_one a = None ∧
  plus_one a ≠ Some (a + 1)%Z.
Proof. cbn. done. Qed.

Lemma plus_pair_in_range (id : level_id) :
  (0 ≤ last_index id ≤ 1000)%Z →
  plus_pair id = Some ((last_index id + 1)%Z, (last_index id + 101)%Z).
Proof.
  intros H. unfold plus_pair, plus_one, plus_101, CInt.add, CInt.checked, CInt.representable.
  rewrite !bool_decide_eq_true_2; [done | |]; unfold CInt.INT_MIN, CInt.INT_MAX; lia.
Qed.

(** C8 (amended): for every [int] input a below the largest [int],
    "plus_one" returns a + 1, and for every [int] input a at most the
    largest [int] minus 101, "plus_101" returns a + 101; so for the source
    values 0..9, in whatever order the cells are delivered, the sink
    observes the multiset {(1,101),(2,102),...,(10,110)} of (b, c) pairs. *)
Theorem plus_one_plus_101_spec :
  (∀ a : Z, (CInt.INT_MIN ≤ a < CInt.INT_MAX)%Z → plus_one a = Some (a + 1)%Z) ∧
  (∀ a : Z, (CInt.INT_MIN ≤ a ≤ CInt.INT_MAX - 101)%Z → plus_101 a = Some (a + 101)%Z) ∧
  last_index <$> cells 10 = [0; 1; 2; 3; 4; 5; 6; 7; 8; 9]%Z ∧
  (∀ delivered : list level_id,
     delivered ≡ₚ cells 10 →
     ∃ observed, plus_scenario delivered = Some observed ∧
       observed ≡ₚ [(1, 101); (2, 102); (3, 103); (4, 104); (5, 105);
                    (6, 106); (7, 107); (8, 108); (9, 109); (10, 110)]%Z).
Proof.
  split_and!.
  - intros a Ha. unfold plus_one, CInt.add, CInt.checked, CInt.representable.
    rewrite bool_decide_eq_true_2; [done | lia].
  - intros a Ha. unfold plus_101, CInt.add, CInt.checked, CInt.representable.
    rewrite bool_decide_eq_true_2; [done | lia].
  - reflexivity.
  - intros delivered Hperm.
    exists ((λ id, ((last_index id + 1)%Z, (last_index id + 101)%Z)) <$> delivered).
    split.
    + unfold plus_scenario. apply mapM_Some, Forall2_fmap_r, Forall_Forall2_diag.
      rewrite Hperm. apply Forall_forall. intros id Hid. apply plus_pair_in_range.
      unfold cells in Hid. apply list_elem_of_fmap in Hid as (k & -> & Hk).
      apply elem_of_seq in Hk.
      do 10 (destruct k as [|k]; [split; by vm_compute|]). lia.
    + rewrite Hperm. reflexivity.
Qed.

End plugin_theorems.

(** C8 (amended) at the inputs 9 and the largest admissible ones, and on
    the cells delivered in reverse order. *)
Lemma plus_one_plus_101_spec_witness :
  Plugins.plus_one 9 = Some 10%Z ∧
  Plugins.plus_one 2147483646 = Some 2147483647%Z ∧
  Plugins.plus_101 2147483546 = Some 2147483647%Z ∧
  ∃ observed, Plugins.plus_scenario (reverse (Plugins.cells 10)) = Some observed ∧
    observed ≡ₚ [(1, 101); (2, 102); (3, 103); (4, 104); (5, 105);
                 (6, 106); (7, 107); (8, 108); (9, 109); (10, 110)]%Z.
Proof.
  split_and!.
  - apply (proj1 plus_one_plus_101_spec 9%Z). unfold CInt.INT_MIN, CInt.INT_MAX. lia.
  - apply (proj1 plus_one_plus_101_spec 2147483646%Z).
    unfold CInt.INT_MIN, CInt.INT_MAX. lia.
  - apply (proj1 (proj2 plus_one_plus_101_spec) 2147483546%Z).
    unfold CInt.INT_MIN, CInt.INT_MAX. lia.
  - apply (proj2 (proj2 (proj2 plus_one_plus_101_spec))).
    apply reverse_Permutation.
Defined.

(* ===================================================================== *)
(** ** Facts about the registration front end                             *)
(* ===================================================================== *)

Section module_wrap_facts.
Import ModuleWrap.

Lemma returns_ret {A} (a : A) (st : state) (Q : A → state → Prop) :
  Q a st → returns (mret a) st Q.
Proof. done. Qed.

Lemma returns_bind {A B} (m : M A) (k : A → M B) (st : state)
    (Q : B → state → Prop) :
  returns m st (λ a st', returns (k a) st' Q) → returns (m ≫= k) st Q.
Proof.
  unfold returns, mbind, M_bind. by destruct (m st).
Qed.

Lemma returns_wand {A} (m : M A) (st : state) (P Q : A → state → Prop) :
  returns m st P → (∀ a st', P a st' → Q a st') → returns m st Q.
Proof.
  unfold returns. destruct (m st); [|done]. intros HP HPQ. by apply HPQ.
Qed.

Lemma runs_ret {A} (a : A) (st : state) (Q : A → state → Prop) (C : Prop) :
  Q a st → runs (mret a) st Q C.
Proof. done. Qed.

Lemma runs_bind {A B} (m : M A) (k : A → M B) (st : state)
    (Q : B → state → Prop) (C : Prop) :
  runs m st (λ a st', runs (k a) st' Q C) C → runs (m ≫= k) st Q C.
Proof.
  unfold runs, mbind, M_bind. by destruct (m st).
Qed.

Lemma runs_wand {A} (m : M A) (st : state) (P Q : A → state → Prop)
    (C D : Prop) :
  runs m st P C → (∀ a st', P a st' → Q a st') → (C → D) → runs m st Q D.
Proof.
  unfold runs. destruct (m st); intros HP HPQ HCD; [by apply HPQ | by apply HCD].
Qed.

Lemma returns_runs {A} (m : M A) (st : state) (Q : A → state → Prop) (C : Prop) :
  returns m st Q → runs m st Q C.
Proof. unfold returns, runs. by destruct (m st). Qed.

(** One step of a run: the specification of the first computation, then
    the rest under what it established. *)
Ltac step lem :=
  eapply returns_bind, returns_wand; [apply lem | cbn beta].

(** The same for a run that may leave the language: [rstep] for a first
    computation that may, [pstep] for one that always returns. *)
Ltac rstep lem :=
  eapply runs_bind, runs_wand; [apply lem | cbn beta | ].

Ltac pstep lem :=
  eapply runs_bind, runs_wand; [apply returns_runs, lem | cbn beta | done].

Lemma PyErr_SetString_spec e text st :
  returns (PyErr_SetString e text) st
    (λ _ st', is_Some (error_indicator st') ∧ registered st' = registered st).
Proof. by cbv; eauto. Qed.

Lemma PyErr_Clear_spec st :
  returns PyErr_Clear st (λ _ st', registered st' = registered st).
Proof. done. Qed.

Lemma set_error_spec e st :
  returns (set_error e) st (λ _ st', registered st' = registered st).
Proof. done. Qed.

Lemma fail_with_spec {A} e text st :
  returns (fail_with (A:=A) e text) st
    (λ r st', r = None ∧ is_Some (error_indicator st')
              ∧ registered st' = registered st).
Proof.
  unfold fail_with. step PyErr_SetString_spec.
  intros _ st' [? ?]. by apply returns_ret.
Qed.

Lemma labels_of_length (items : list seq_item) :
  length (labels_of items) = length items.
Proof.
  induction items as [|[utf8| |e] rest IH]; cbn [labels_of length];
    [done | by rewrite IH | by rewrite length_replicate..].
Qed.

Lemma cseq_loop_labels i items st :
  returns (cseq_loop i items) st
    (λ l st', l = labels_of items ∧ registered st' = registered st).
Proof.
  revert i st. induction items as [|[utf8| |e] rest IH]; intros i st;
    cbn [cseq_loop labels_of].
  - by apply returns_ret.
  - step IH. intros tail st' [-> Hreg]. by apply returns_ret.
  - step PyErr_SetString_spec. intros _ st' [_ Hreg]. by apply returns_ret.
  - step set_error_spec. intros _ st' Hreg. by apply returns_ret.
Qed.

(** [cseq] returns the labels of an argument that has a length, and of
    no other. *)
Lemma cseq_labels coll st :
  runs (cseq coll) st
    (λ l st', l = from_option labels_of [] (coll ≫= sequence_items)
              ∧ registered st' = registered st
              ∧ from_option has_length true coll = true)
    (from_option has_length true coll = false).
Proof.
  destruct coll as [[items| |]|]; cbn [cseq]; try done.
  eapply returns_runs, returns_wand; [apply cseq_loop_labels|].
  by intros l st' [-> ?].
Qed.

Lemma annotation_as_text_spec a st :
  runs (annotation_as_text a) st
    (λ t st', t = annotation_text a ∧ registered st' = registered st
              ∧ printable a = true)
    (printable a = false).
Proof.
  destruct a as [[utf8|]|[[name|]|] [str|]];
    cbn [annotation_as_text annotation_text printable PyObject_Str default];
    try done.
  - unfold runs, mbind, M_bind, mret, M_ret.
    destruct (String.eqb name "ndarray"), (String.eqb name "list"); by cbn.
  - unfold runs, mbind, M_bind, mret, M_ret.
    destruct (String.eqb name "ndarray"), (String.eqb name "list"); by cbn.
  - unfold runs, mbind, M_bind, mret, M_ret, PyErr_Clear.
    destruct (String.eqb str "ndarray"), (String.eqb str "list"); by cbn.
Qed.

Lemma input_types_loop_spec entries st :
  let read := List.filter (λ e, negb (is_return_key e.1)) entries in
  runs (input_types_loop entries) st
    (λ ts st',
       ts = (λ e, annotation_text e.2) <$> read
       ∧ registered st' = registered st
       ∧ forallb printable (snd <$> read) = true)
    (forallb printable (snd <$> read) = false).
Proof.
  cbn zeta. revert st. induction entries as [|[key val] rest IH]; intros st;
    cbn [input_types_loop List.filter fst].
  - by apply runs_ret.
  - destruct (is_return_key key); cbn [negb]; [apply IH|].
    cbn [fmap list_fmap forallb snd].
    rstep annotation_as_text_spec; [|by intros ->].
    intros t st1 (-> & Hreg1 & ->). cbn [andb].
    rstep IH; [|done].
    intros ts st2 (-> & Hreg2 & Hall). apply runs_ret.
    split_and!; [done | congruence | done].
Qed.

Lemma get_annotations_spec c st :
  returns (get_annotations c) st
    (λ annot st',
       annotations_of c = match annot with
                          | Some (AnnotDict entries) => entries
                          | _ => []
                          end
       ∧ registered st' = registered st).
Proof.
  unfold get_annotations, annotations_of.
  destruct (dunder_annotations c) as [annot|]; [by apply returns_ret|].
  step PyErr_Clear_spec. intros _ st1 Hreg1.
  destruct (dunder_call c) as [[annot|]|]; cbn [mjoin option_join].
  - by apply returns_ret.
  - step PyErr_SetString_spec. intros _ st2 [_ Hreg2]. apply returns_ret.
    split; [done | congruence].
  - step PyErr_SetString_spec. intros _ st2 [_ Hreg2]. apply returns_ret.
    split; [done | congruence].
Qed.

Lemma collect_types_spec c annot st :
  annotations_of c = match annot with
                     | Some (AnnotDict entries) => entries
                     | _ => []
                     end →
  runs (collect_types annot) st
    (λ r st',
       r.1 = option_list (annotated_return c) ∧ r.2 = annotated_inputs c
       ∧ registered st' = registered st
       ∧ forallb printable (printed_annotations c) = true)
    (forallb printable (printed_annotations c) = false).
Proof.
  intros Hannot. unfold annotated_return, annotated_inputs, printed_annotations.
  rewrite Hannot, forallb_app.
  destruct annot as [[[|e es]|]|]; cbn [collect_types]; try by apply runs_ret.
  apply runs_bind.
  destruct (PyDict_GetItemString (e :: es) "return") as [ret|];
    cbn [fmap option_fmap option_map]; unfold option_list; cbn [option_rect forallb].
  - rewrite andb_true_r.
    rstep annotation_as_text_spec; [|by intros ->].
    intros t st1 (-> & Hreg1 & ->). apply runs_ret. cbn [andb].
    rstep input_types_loop_spec; [|done].
    intros ts st2 (-> & Hreg2 & Hall). apply runs_ret.
    split_and!; [done | done | congruence | done].
  - apply runs_ret. cbn [andb].
    rstep input_types_loop_spec; [|done].
    intros ts st2 (-> & Hreg2 & Hall). by apply runs_ret.
Qed.

(** A call [parse_args] rejects. *)
Ltac rejected :=
  eapply returns_runs, returns_wand;
    [apply fail_with_spec
    | intros ? ? (-> & ? & ?); split_and!; congruence || done ].

(** What [parse_args] decides and hands back, told from the arguments. *)
Lemma parse_args_outcome kw st :
  runs (parse_args (Some kw)) st
    (λ r st',
       registered st' = registered st ∧ undefined_call kw = false ∧
       match r with
       | None => acceptable kw = false ∧ is_Some (error_indicator st')
       | Some p =>
           acceptable kw = true
           ∧ Some (functor_name p) = algorithm_name_of kw
           ∧ input_labels p = labels_of_call kw
           ∧ input_types p = annotated_inputs (kw_callable kw)
           ∧ length (input_labels p) = length (input_types p)
           ∧ output_labels p = output_labels_of_call kw
           ∧ output_types p = expected_output_types (kw_callable kw)
           ∧ target p = default (object_id (kw_callable kw))
                          (phlex_callable (kw_callable kw))
       end)
    (undefined_call kw = true ∧ acceptable kw = false).
Proof.
  destruct kw as [c inp outp conc nm].
  unfold acceptable, undefined_call, serial_callable, algorithm_name_of,
    name_object, declared_outputs, declared_inputs, labels_of_call,
    output_labels_of_call.
  cbn [parse_args kw_callable kw_input_family kw_output_products
       kw_concurrency kw_name].
  destruct conc as [[|]|]; [|rejected|].
  all: destruct (callable_check c); cbn [negb andb]; [|rejected].
  all: destruct (match nm with
                 | Some n => Some n
                 | None => dunder_name c
                 end) as [[name|]|]; [| by split |rejected].
  all: destruct inp as [items| |]; cbn [PySequence_Check negb orb]; [| |rejected].
  all: destruct outp as [[outs| |]|];
    cbn [from_option PySequence_Check negb orb]; [| |rejected|].
  all: rstep cseq_labels; [|by split]; cbn [mbind option_bind sequence_items from_option];
    intros labels st1 (-> & Hreg1 & Hin); try done.
  all: rstep cseq_labels; [|by split]; cbn [mbind option_bind sequence_items from_option];
    intros out_labels st2 (-> & Hreg2 & Hout); try done.
  all: case_bool_decide as Houts;
    rewrite ?labels_of_length in Houts; cbn [length] in Houts;
    [ first
        [ lia
        | rewrite (bool_decide_eq_false_2 (_ ≤ 1)) by lia;
          eapply returns_runs, returns_wand; [apply fail_with_spec|];
          intros ? ? (-> & ? & ?); rewrite ?andb_false_r;
          split_and!; congruence || done ]
    | rewrite (bool_decide_eq_true_2 (_ ≤ 1)) by lia ].
  all: rewrite (bool_decide_eq_true_2 (is_Some (Some name))) by eauto.
  all: change (has_length (Sequence items)) with true;
    try change (has_length (Sequence outs)) with true;
    cbn [negb orb andb].
  all: pstep get_annotations_spec; intros annot st3 [Hannot Hreg3].
  all: eapply runs_bind, runs_wand; [by apply collect_types_spec| |];
    cbn beta; [|by intros ->].
  all: intros [outs' ins] st4 (Houts' & Hins & Hreg4 & ->);
    cbn [fst snd negb andb] in *.
  all: subst ins; rewrite labels_of_length; case_bool_decide as Hcount;
    [ eapply returns_runs, returns_wand; [apply fail_with_spec|];
      intros ? ? (-> & ? & ?);
      rewrite bool_decide_eq_false_2 by done; split_and!; congruence || done
    | ].
  all: eapply runs_bind,
         (runs_wand _ _
            (λ w st', w = default (object_id c) (phlex_callable c)
                      ∧ registered st' = registered st4) _ False);
    [by destruct (phlex_callable c) | cbn beta | done].
  all: intros wrapped st5 [-> Hreg5]; apply runs_ret.
  all: rewrite bool_decide_eq_true_2 by done.
  all: cbn [functor_name input_labels input_types output_labels output_types target].
  all: rewrite labels_of_length.
  all: split_and!; try done; try congruence.
  all: unfold expected_output_types; rewrite Houts'.
  all: destruct (annotated_return c) as [t|]; [|done].
  all: change (option_list (Some t)) with [t].
  all: repeat case_bool_decide; simplify_eq; done.
Qed.






End module_wrap_facts.


(* ===================================================================== *)
(** ** Further properties: product stores                                 *)
(* ===================================================================== *)

Section product_store_more.
Import ProductStore.

(** X1: a store found by [store_for_product] lies on the chain of the
    store asked, contains the product itself, and is found again when the
    search starts from it. *)
Theorem store_for_product_found (s t : product_store) (n : string) :
  store_for_product s n = Some t →
  t ∈ chain s ∧ contains_product t n = true ∧ store_for_product t n = Some t.
Proof.
  unfold store_for_product. intros Hfound.
  assert (t ∈ chain s ∧ contains_product t n = true) as [Hin Hhas].
  { rewrite store_for_product_loop_find in Hfound.
    apply (find_first (λ u, contains_product u n)) in Hfound as (k & Hk & Hc & _).
    split; [|done]. apply list_elem_of_lookup. eauto. }
  split_and!; [done | done |].
  destruct t as [[up|] pr i src st]; cbn [store_for_product_loop]; by rewrite Hhas.
Qed.

(** X2: a child made with products answers for the names it carries
    itself and hands every other name to the store it was made from; a
    child made with a stage carries nothing and hands every name on. *)
Theorem store_for_product_make_child (s : product_store) (n : N)
    (L src name : string) (p : gmap string Products.product) (st : stage) :
  store_for_product (make_child s n L src p) name
  = (if Products.contains p name then Some (make_child s n L src p)
     else store_for_product s name) ∧
  store_for_product (make_child_stage s n L src st) name
  = store_for_product s name.
Proof.
  unfold store_for_product. split.
  - cbn [make_child new_child_with_products store_for_product_loop].
    unfold contains_product at 1. cbn [products_]. by destruct (Products.contains p name).
  - cbn [make_child_stage new_child_with_stage store_for_product_loop].
    unfold contains_product at 1, Products.contains. cbn [products_].
    unfold Products.default_products. rewrite lookup_empty.
    by rewrite bool_decide_eq_false_2 by (by intros [? ?]).
Qed.

(** X3: the flush marker of a store does not expose the products of that
    store: a search from the marker is the search from the parent (and
    finds nothing when there is no parent).  A continuation answers for
    its own new products and is otherwise the search from the parent; the
    products of the store it continues are not reachable through it. *)
Theorem store_for_product_flush_continuation (s : product_store)
    (src name : string) (p : gmap string Products.product) :
  store_for_product (make_flush s) name
  = (parent s ≫= λ up, store_for_product up name) ∧
  store_for_product (make_continuation s src p) name
  = (if Products.contains p name then Some (make_continuation s src p)
     else parent s ≫= λ up, store_for_product up name).
Proof.
  unfold store_for_product, parent. split.
  - cbn [make_flush new_store store_for_product_loop].
    unfold contains_product at 1, Products.contains. cbn [products_].
    unfold Products.default_products. rewrite lookup_empty.
    rewrite bool_decide_eq_false_2 by (by intros [? ?]).
    by destruct (parent_ s).
  - cbn [make_continuation new_store store_for_product_loop].
    unfold contains_product at 1. cbn [products_].
    destruct (Products.contains p name); [done|]. by destruct (parent_ s).
Qed.

Lemma parent_loop_unfold (s : product_store) (L : string) :
  parent_loop s L
  = if String.eqb (level_name s) L then Some s else parent_of_level s L.
Proof. by destruct s as [[up|] pr i src st]. Qed.

(** X4: for a child of [s], [parent(L)] is [s] itself when the level name
    of [s] is [L] and is [s.parent(L)] otherwise; a flush marker and a
    continuation of [s] give the same answer as [s]; and whatever store
    [parent(L)] returns has the level name [L]. *)
Theorem parent_of_level_derived (s : product_store) (n : N)
    (L' src L : string) (p : gmap string Products.product) :
  parent_of_level (make_child s n L' src p) L
  = (if String.eqb (level_name s) L then Some s else parent_of_level s L) ∧
  parent_of_level (make_flush s) L = parent_of_level s L ∧
  parent_of_level (make_continuation s src p) L = parent_of_level s L ∧
  (∀ t, parent_of_level s L = Some t → level_name t = L).
Proof.
  split_and!.
  - unfold parent_of_level at 1. cbn [make_child new_child_with_products parent_].
    apply parent_loop_unfold.
  - done.
  - done.
  - intros t Ht.
    assert (parent_of_level s L
            = List.find (λ u, String.eqb (level_name u) L) (ancestors s)) as Hfind.
    { unfold parent_of_level, ancestors. destruct (parent_ s); [|done].
      apply parent_loop_find. }
    rewrite Hfind in Ht.
    apply (find_first (λ u, String.eqb (level_name u) L)) in Ht as (_ & _ & Ht & _).
    by apply String.eqb_eq.
Qed.

(** X5: [more_derived] returns one of its two arguments, and the depth of
    what it returns is the larger of the two depths. *)
Theorem more_derived_max_depth (a b : product_store) :
  (more_derived a b = a ∨ more_derived a b = b) ∧
  LevelId.depth (id (more_derived a b))
  = LevelId.depth (id a) `max` LevelId.depth (id b).
Proof.
  unfold more_derived. case_bool_decide; split; auto; lia.
Qed.

Lemma built_parent (s up : product_store) :
  built s → parent s = Some up → built up.
Proof.
  intros Hs. revert up. induction Hs; intros up; cbn; try done; naive_solver.
Qed.

Lemma built_id_follows_parent (s : product_store) :
  built s →
  id_follows_parent s ∧ LevelId.depth (id s) = length (ancestors s).
Proof.
  induction 1 as [|s n L src p _ [IH1 IH2]|s n L src st _ [IH1 IH2]
                  |s src p _ [IH1 IH2]|s _ [IH1 IH2]].
  - done.
  - split; [by exists n, L|].
    unfold ancestors. cbn. rewrite chain_unfold. unfold LevelId.depth, LevelId.make_child.
    rewrite length_app. cbn. unfold LevelId.depth, id in IH2. lia.
  - split; [by exists n, L|].
    unfold ancestors. cbn. rewrite chain_unfold. unfold LevelId.depth, LevelId.make_child.
    rewrite length_app. cbn. unfold LevelId.depth, id in IH2. lia.
  - done.
  - done.
Qed.

(** X6: on every store built from the base store with [make_child],
    [make_continuation] and [make_flush], and on every store of its chain,
    the id follows the parent links: it is the base id where there is no
    parent and the id of the parent extended by one component otherwise,
    and its depth is the number of proper ancestors. *)
Theorem built_chain_invariant (s t : product_store) :
  built s → t ∈ chain s →
  built t ∧ id_follows_parent t ∧ LevelId.depth (id t) = length (ancestors t).
Proof.
  intros Hs Ht.
  assert (built t) as Hbt; [|split; [done | by apply built_id_follows_parent]].
  revert Hs Ht.
  induction s as [pr i src st|up pr i src st IH] using product_store_chain_ind;
    cbn [chain]; intros Hs [->|Ht]%elem_of_cons; try done.
  - by apply elem_of_nil in Ht.
  - apply IH; [|done]. by apply (built_parent _ _ Hs).
Qed.

End product_store_more.

(** X1 on a cell whose parent carries the product "a". *)
Lemma store_for_product_found_witness :
  let run := ProductStore.make_child ProductStore.base 1 "run" "driver"
               {[ "a" := Products.Product "int" (Products.PInt 3) ]} in
  let cell := ProductStore.make_child run 7 "cell" "driver" ∅ in
  run ∈ ProductStore.chain cell ∧
  ProductStore.contains_product run "a" = true ∧
  ProductStore.store_for_product run "a" = Some run.
Proof.
  cbn zeta. apply store_for_product_found. vm_compute. reflexivity.
Defined.

(** X6 on the flush marker of a cell two levels below the base store. *)
Lemma built_chain_invariant_witness :
  let run := ProductStore.make_child ProductStore.base 1 "run" "driver" ∅ in
  let cell := ProductStore.make_child run 7 "cell" "driver" ∅ in
  ProductStore.built run ∧ ProductStore.id_follows_parent run ∧
  LevelId.depth (ProductStore.id run) = length (ProductStore.ancestors run).
Proof.
  cbn zeta.
  apply (built_chain_invariant
           (ProductStore.make_flush
              (ProductStore.make_child
                 (ProductStore.make_child ProductStore.base 1 "run" "driver" ∅)
                 7 "cell" "driver" ∅))).
  - repeat constructor.
  - cbn. set_solver.
Defined.

(* ===================================================================== *)
(** ** Further properties: the output node, DOT attributes, providers     *)
(* ===================================================================== *)

Section declared_output_more.
Import ProductStore DeclaredOutput.
Context {W : Type}.

(** X7: the body of an output node keeps flush stores out of the record
    of stores handed to the user callable: if none is in it before a
    message is processed, none is in it afterwards, whatever the message
    and whether or not the callable throws. *)
Theorem node_body_keeps_flush_out
    (f : output_function_t (W:=W)) (msg : message) (w : world) :
  Forall (λ s, is_flush s = false) (invoked w) →
  Forall (λ s, is_flush s = false) (invoked (node_body f msg w).2).
Proof.
  intros Hw. unfold node_body, body_bind, call, body_ret.
  destruct (is_flush (store msg)) eqn:Hflush; cbn [negb]; [done|].
  destruct (f (store msg) (backend w)) as [[[]|e] b]; cbn;
    apply Forall_app; split; try done; by apply Forall_singleton.
Qed.

End declared_output_more.

(** X7 on a process store handed to a callable that counts its calls. *)
Lemma node_body_keeps_flush_out_witness :
  let f : DeclaredOutput.output_function_t (W:=nat) :=
    λ _ b, (DeclaredOutput.Returns tt, S b) in
  let msg := DeclaredOutput.Message ProductStore.base in
  let w := DeclaredOutput.World 0 [] in
  Forall (λ s, ProductStore.is_flush s = false)
    (DeclaredOutput.invoked (DeclaredOutput.node_body f msg w).2).
Proof.
  cbn zeta. apply node_body_keeps_flush_out. constructor.
Defined.

Section dot_more.
Import Dot.

Lemma append_assoc (a b c : string) : (a +:+ b) +:+ c = a +:+ (b +:+ c).
Proof.
  induction a as [|x a IH]; [done|].
  change (String x ((a +:+ b) +:+ c) = String x (a +:+ (b +:+ c))). by rewrite IH.
Qed.

Lemma append_nil_r (a : string) : a +:+ "" = a.
Proof.
  induction a as [|x a IH]; [done|].
  change (String x (a +:+ "") = String x a). by rewrite IH.
Qed.

Lemma empty_append (a b : string) : empty (a +:+ b) = empty a && empty b.
Proof. by destruct a. Qed.

(** Joining with one more item at the end. *)
Lemma concat_snoc (sep : string) (l : list string) (x : string) :
  String.concat sep (l ++ [x])
  = match l with
    | [] => x
    | _ => String.concat sep l +:+ (sep +:+ x)
    end.
Proof.
  induction l as [|y l IH]; [done|].
  destruct l as [|z l]; [done|].
  change (String.concat sep ((y :: z :: l) ++ [x]))
    with (y +:+ sep +:+ String.concat sep ((z :: l) ++ [x])).
  rewrite IH.
  change (String.concat sep (y :: z :: l))
    with (y +:+ sep +:+ String.concat sep (z :: l)).
  by rewrite !append_assoc.
Qed.

(** A join of non-empty items is empty only for no item. *)
Lemma empty_concat (l : list string) :
  Forall (λ x, empty x = false) l →
  empty (String.concat ", " l) = match l with [] => true | _ => false end.
Proof.
  destruct l as [|x l]; [done|]. intros [Hx _]%Forall_cons.
  destruct l; [done|]. cbn [String.concat]. by rewrite empty_append, Hx.
Qed.

(** One [result += maybe_comma(result) + item] on a result that is a join. *)
Lemma append_item (l : list string) (x : string) :
  Forall (λ y, empty y = false) l →
  String.concat ", " l +:+ (maybe_comma (String.concat ", " l) +:+ x)
  = String.concat ", " (l ++ [x]).
Proof.
  intros Hl. unfold maybe_comma. rewrite (empty_concat l Hl), concat_snoc.
  by destruct l.
Qed.

Lemma shown_nonempty (key value : string) :
  empty key = false → Forall (λ y, empty y = false) (shown key value).
Proof.
  intros Hkey. unfold shown. destruct (empty value); [done|].
  apply Forall_singleton. by rewrite empty_append, Hkey.
Qed.

(** One plain attribute appended to a result that is a join. *)
Lemma append_shown (l : list string) (key value : string) :
  Forall (λ y, empty y = false) l →
  (if negb (empty value)
   then String.concat ", " l
        +:+ ((maybe_comma (String.concat ", " l) +:+ key) +:+ value)
   else String.concat ", " l)
  = String.concat ", " (l ++ shown key value).
Proof.
  intros Hl. unfold shown. destruct (empty value); cbn [negb].
  - by rewrite app_nil_r.
  - by rewrite append_assoc, append_item.
Qed.

(** X8: [to_string] prints, between brackets, exactly the attributes that
    are set, in the fixed order color, fontcolor, fontsize, label, shape,
    style, separated by a comma and a blank: no separator leads, trails
    or doubles, and with no attribute set the result is the two
    brackets. *)
Theorem to_string_joins_rendered (attrs : attributes) :
  to_string attrs = "[" +:+ String.concat ", " (rendered attrs) +:+ "]".
Proof.
  unfold to_string, rendered. cbv zeta.
  set (l1 := shown "color=" (color attrs)).
  assert (Forall (λ y, empty y = false) l1) as H1 by by apply shown_nonempty.
  assert ((if negb (empty (color attrs))
           then "" +:+ ("color=" +:+ color attrs) else "")
          = String.concat ", " l1) as ->.
  { unfold l1, shown. by destruct (empty (color attrs)). }
  rewrite (append_shown l1 "fontcolor=") by done.
  set (l2 := l1 ++ shown "fontcolor=" (fontcolor attrs)).
  assert (Forall (λ y, empty y = false) l2) as H2
    by (apply Forall_app; split; [done | by apply shown_nonempty]).
  rewrite (append_shown l2 "fontsize=") by done.
  set (l3 := l2 ++ shown "fontsize=" (fontsize attrs)).
  assert (Forall (λ y, empty y = false) l3) as H3
    by (apply Forall_app; split; [done | by apply shown_nonempty]).
  set (lab := if empty (label attrs) then []
              else ["label=" +:+ quote_mark +:+ " " +:+ label attrs +:+ quote_mark]).
  assert ((if negb (empty (label attrs))
           then String.concat ", " l3
                +:+ (((maybe_comma (String.concat ", " l3)
                       +:+ ("label=" +:+ quote_mark +:+ " "))
                      +:+ label attrs) +:+ quote_mark)
           else String.concat ", " l3)
          = String.concat ", " (l3 ++ lab)) as ->.
  { unfold lab. destruct (empty (label attrs)); cbn [negb].
    - by rewrite app_nil_r.
    - rewrite <- append_item by done. by rewrite !append_assoc. }
  set (l4 := l3 ++ lab).
  assert (Forall (λ y, empty y = false) l4) as H4.
  { apply Forall_app; split; [done|]. unfold lab.
    destruct (empty (label attrs)); [done | by apply Forall_singleton]. }
  rewrite (append_shown l4 "shape=") by done.
  set (l5 := l4 ++ shown "shape=" (shape attrs)).
  assert (Forall (λ y, empty y = false) l5) as H5
    by (apply Forall_app; split; [done | by apply shown_nonempty]).
  rewrite (append_shown l5 "style=") by done.
  unfold l5, l4, l3, l2, l1. rewrite <- !(assoc_L (++)).
  by rewrite append_assoc.
Qed.

End dot_more.

Section plugin_more.
Import LevelId Plugins.

Lemma mod_2_cases (n : N) : (n mod 2 = 0 ∨ n mod 2 = 1)%N.
Proof.
  assert (n mod 2 < 2)%N as Hlt by (apply N.mod_lt; lia).
  destruct (n mod 2)%N as [|[p|p|]]; [by left | lia | lia | by right].
Qed.

(** X9: on every cell the providers of test/python/source.cpp come in
    complementary pairs: "i" and "j", "u1" and "u2", "l1" and "l2" each
    hold 0 and 1 in some order and add up to 1, "ul1" and "ul2" add up to
    100, exactly one of "b1" and "b2" is true, and "k" is 0. *)
Theorem providers_are_complementary (id : level_id) :
  (∃ j, provide_j id = Some j ∧ (provide_i id + j = 1)%Z
        ∧ (0 ≤ provide_i id ≤ 1)%Z) ∧
  ((provide_u1 id + provide_u2 id = 1)%Z ∧ (0 ≤ provide_u1 id ≤ 1)%Z) ∧
  (∃ l2, provide_l2 id = Some l2 ∧ (provide_l1 id + l2 = 1)%Z
         ∧ (0 ≤ provide_l1 id ≤ 1)%Z) ∧
  ((provide_ul1 id + provide_ul2 id = 100)%Z ∧ (0 ≤ provide_ul1 id ≤ 100)%Z) ∧
  provide_b1 id = negb (provide_b2 id) ∧
  provide_k id = 0%Z.
Proof.
  unfold provide_i, provide_j, provide_u1, provide_u2, provide_l1, provide_l2,
    provide_ul1, provide_ul2, provide_b1, provide_b2, provide_k.
  split; [|split; [|split; [|split; [|split]]]].
  - destruct (mod_2_cases (number id)) as [-> | ->]; eexists; by vm_compute.
  - destruct (mod_2_cases (number id)) as [-> | ->]; by vm_compute.
  - destruct (mod_2_cases (number id)) as [-> | ->]; eexists; by vm_compute.
  - assert (number id mod 101 < 101)%N as Hlt by (apply N.mod_lt; lia).
    unfold CInt.ulong.
    assert (0 ≤ Z.of_N (number id mod 101) ≤ 100)%Z as Hm.
    { split; [apply N2Z.is_nonneg|]. apply N2Z.inj_lt in Hlt.
      change (Z.of_N 101) with 101%Z in Hlt. revert Hlt.
      generalize (Z.of_N (number id mod 101)). intros; lia. }
    revert Hm. generalize (Z.of_N (number id mod 101)). intros m Hm.
    change (2 ^ 64)%Z with 18446744073709551616%Z.
    rewrite (Z.mod_small m) by lia.
    rewrite Z.mod_small by lia. lia.
  - by rewrite negb_involutive.
  - done.
Qed.

(** X10: [last_index] is the number of the cell cut to [int]: always an
    [int] that differs from the number by a multiple of 2^32, the number
    itself below 2^31, and negative from 2^31 up to 2^32. *)
Theorem last_index_truncates (id : level_id) :
  (CInt.INT_MIN ≤ last_index id ≤ CInt.INT_MAX)%Z ∧
  ((last_index id - Z.of_N (number id)) mod 2 ^ 32 = 0)%Z ∧
  ((Z.of_N (number id) < 2 ^ 31)%Z → last_index id = Z.of_N (number id)) ∧
  ((2 ^ 31 ≤ Z.of_N (number id) < 2 ^ 32)%Z →
     last_index id = (Z.of_N (number id) - 2 ^ 32)%Z ∧ (last_index id < 0)%Z).
Proof.
  unfold last_index, CInt.of_size_t, CInt.INT_MIN, CInt.INT_MAX.
  assert (0 ≤ Z.of_N (number id))%Z as Hn by apply N2Z.is_nonneg.
  revert Hn. generalize (Z.of_N (number id)). intros n Hn.
  change (2 ^ 32)%Z with 4294967296%Z. change (2 ^ 31)%Z with 2147483648%Z.
  pose proof (Z.mod_pos_bound n 4294967296 ltac:(lia)) as Hmod.
  cbv zeta. split; [|split; [|split]].
  - destruct (Z.ltb_spec (n mod 4294967296) 2147483648); lia.
  - destruct (Z.ltb_spec (n mod 4294967296) 2147483648).
    + rewrite Zminus_mod, Zmod_mod, Z.sub_diag. done.
    + replace (n mod 4294967296 - 4294967296 - n)%Z
        with (n mod 4294967296 - n + (-1) * 4294967296)%Z by lia.
      rewrite Z.mod_add by lia.
      rewrite Zminus_mod, Zmod_mod, Z.sub_diag. done.
  - intros Hsmall. rewrite Z.mod_small by lia.
    destruct (Z.ltb_spec n 2147483648); lia.
  - intros Hbig. rewrite Z.mod_small by lia.
    destruct (Z.ltb_spec n 2147483648); lia.
Qed.

End plugin_more.

(** X10 on the cells 5 and 2^31. *)
Lemma last_index_truncates_witness :
  Plugins.last_index (Plugins.cell 5) = 5%Z ∧
  Plugins.last_index (Plugins.cell 2147483648) = (-2147483648)%Z.
Proof.
  split.
  - apply (proj1 (proj2 (proj2 (last_index_truncates (Plugins.cell 5))))).
    by vm_compute.
  - apply (proj2 (proj2 (proj2 (last_index_truncates (Plugins.cell 2147483648))))).
    by vm_compute.
Defined.

(* ===================================================================== *)
(** ** Further properties: the registration front end                     *)
(* ===================================================================== *)

Section module_wrap_more.
Import ModuleWrap.
#[local] Set Warnings "-clear-no-such-hyp".

Lemma stringify_tail_join (x : string) (v : list string) :
  x +:+ stringify_tail v = String.concat ", " (x :: v).
Proof.
  revert x. induction v as [|y v IH]; intros x.
  - apply append_nil_r.
  - change (x +:+ (", " +:+ (y +:+ stringify_tail v))
            = x +:+ (", " +:+ String.concat ", " (y :: v))).
    by rewrite IH.
Qed.

(** X11: [stringify] joins the strings of a vector with a comma and a
    blank between neighbours, and gives the empty string for none. *)
Theorem stringify_is_join (v : list string) :
  stringify v = String.concat ", " v.
Proof.
  destruct v as [|x v]; [done|]. apply stringify_tail_join.
Qed.










Ltac run lem :=
  eapply returns_bind, returns_wand; [apply lem | cbn beta].

Lemma returns_ensures {A} (m : M A) st (Q : A → state → Prop) :
  returns m st Q → ensures m st Q.
Proof. unfold returns, ensures. by destruct (m st). Qed.

Lemma runs_ensures {A} (m : M A) st (Q : A → state → Prop) (C : Prop) :
  runs m st Q C → ensures m st Q.
Proof. unfold runs, ensures. by destruct (m st). Qed.

Lemma ensures_bind {A B} (m : M A) (k : A → M B) st (Q : B → state → Prop) :
  ensures m st (λ a st', ensures (k a) st' Q) → ensures (m ≫= k) st Q.
Proof. unfold ensures, mbind, M_bind. by destruct (m st). Qed.

Lemma ensures_wand {A} (m : M A) st (P Q : A → state → Prop) :
  ensures m st P → (∀ a st', P a st' → Q a st') → ensures m st Q.
Proof. unfold ensures. destruct (m st); [|done]. intros HP HPQ. by apply HPQ. Qed.

(** One converter node declared: what it reads and writes. *)
Lemma insert_input_converter_spec cname inp inp_type st :
  returns (insert_input_converter cname inp inp_type) st
    (λ ok st',
       if ok
       then ∃ c, registered st' = registered st ++ [c]
                 ∧ kind c = TransformNode ∧ inputs c = [query inp]
                 ∧ outputs c = [py_input cname inp]
                 ∧ error_indicator st' = error_indicator st
       else registered st' = registered st ∧ is_Some (error_indicator st')).
Proof.
  unfold insert_input_converter.
  repeat case_match;
    first
      [ by (cbv [returns mbind M_bind mret M_ret INSERT_INPUT_CONVERTER transform
                 register registered error_indicator];
            eexists; split_and!; reflexivity)
      | by (cbv [returns mbind M_bind mret M_ret PyErr_SetString registered
                 error_indicator]; eauto) ].
Qed.

Lemma insert_input_converters_loop_spec cname types labels i st :
  i + length labels ≤ length types →
  returns (insert_input_converters_loop cname types i labels) st
    (λ ok st',
       ∃ convs, registered st' = registered st ++ convs
                ∧ converters_for cname (take (length convs) labels) convs
                ∧ if ok
                  then length convs = length labels
                       ∧ error_indicator st' = error_indicator st
                  else length convs < length labels
                       ∧ is_Some (error_indicator st')).
Proof.
  revert i st. induction labels as [|inp rest IH]; intros i st Hlen;
    cbn [insert_input_converters_loop].
  - apply returns_ret. exists []. rewrite app_nil_r. split_and!; try done. constructor.
  - cbn [length] in Hlen.
    destruct (types !! i) as [inp_type|] eqn:Hty;
      [|apply lookup_ge_None in Hty; lia].
    run insert_input_converter_spec. intros [|] st1 H1.
    + destruct H1 as (c & Hreg1 & Hk & Hi & Ho & Herr1).
      eapply returns_wand; [apply (IH (S i)); lia|]. cbn beta.
      intros ok st2 (convs & Hreg2 & Hconvs & Hok).
      exists (c :: convs). split_and!.
      * rewrite Hreg2, Hreg1. by rewrite <- (assoc_L (++)).
      * cbn [length take]. by constructor.
      * destruct ok; cbn [length]; destruct Hok as [? ?]; split; try lia; congruence.
    + destruct H1 as [Hreg1 Herr1]. apply returns_ret.
      exists []. rewrite app_nil_r. split_and!; [done | constructor | cbn; lia | done].
Qed.

Lemma register_callback_spec rv cname callable labels py_out st :
  returns (register_callback rv cname callable labels py_out) st
    (λ ok st',
       if ok
       then 1 ≤ length labels ≤ 3
            ∧ error_indicator st' = error_indicator st
            ∧ registered st'
              = registered st
                ++ [Node (if rv then TransformNode else ObserverNode) cname
                      (PyCallback (length labels) rv callable)
                      (query <$> (py_input cname <$> labels))
                      (if rv then [py_out] else [])]
       else registered st' = registered st ∧ is_Some (error_indicator st')
            ∧ (length labels = 0 ∨ 3 < length labels)).
Proof.
  unfold register_callback.
  destruct labels as [|l0 [|l1 [|l2 [|l3 rest]]]]; destruct rv;
    cbv [returns mbind M_bind mret M_ret transform observe register
         PyErr_SetString registered error_indicator length];
    rewrite <- ?list_fmap_compose;
    first [ split_and!; [lia | lia | done | done]
          | split_and!; [done | eauto | lia] ].
Qed.

Lemma insert_output_converter_spec cname output output_type st :
  ensures (insert_output_converter cname output output_type) st
    (λ r st',
       match r with
       | Some _ =>
           ∃ c, registered st' = registered st ++ [c]
                ∧ kind c = TransformNode
                ∧ inputs c = [query ("py" +:+ output +:+ "_" +:+ cname)]
                ∧ outputs c = [output]
                ∧ error_indicator st' = error_indicator st
       | None => registered st' = registered st ∧ is_Some (error_indicator st')
       end).
Proof.
  unfold insert_output_converter.
  repeat case_match;
    first
      [ by (cbv [ensures mbind M_bind mret M_ret INSERT_OUTPUT_CONVERTER
                 vector_output_converter Py_RETURN_NONE transform register
                 registered error_indicator];
            eexists; split_and!; reflexivity)
      | by (cbv [ensures fail_with mbind M_bind mret M_ret PyErr_SetString
                 registered error_indicator]; eauto)
      | done ].
Qed.

Lemma converters_for_kinds cname ls convs :
  converters_for cname ls convs → Forall (λ c, kind c = TransformNode) convs.
Proof. induction 1 as [|l c ls convs (Hk & _) _ IH]; constructor; done. Qed.

(** Everything a call of [md_observe] can do, if it returns. *)
Lemma md_observe_spec kw st :
  ensures (md_observe (Some kw)) st
    (λ r st',
       match r with
       | Some _ =>
           acceptable kw = true
           ∧ expected_output_types (kw_callable kw) = []
           ∧ 1 ≤ length (labels_of_call kw) ≤ 3
           ∧ ∃ name convs,
               algorithm_name_of kw = Some name
               ∧ converters_for name (labels_of_call kw) convs
               ∧ registered st'
                 = registered st ++ convs ++ [callback_node false kw name []]
       | None =>
           is_Some (error_indicator st')
           ∧ ∃ convs, registered st' = registered st ++ convs
                      ∧ Forall (λ c, kind c = TransformNode) convs
                      ∧ length convs ≤ declared_inputs kw
       end).
Proof.
  unfold md_observe.
  eapply ensures_bind, ensures_wand; [eapply runs_ensures, parse_args_outcome|].
  cbn beta. intros [p|] st1 (Hreg1 & _ & Hp); apply returns_ensures.
  - destruct Hp as (Hacc & Hname & Hlabels & Htypes & Hlen & Holabels & Hotypes & Htarget).
    assert (length (input_labels p) ≤ declared_inputs kw) as Hdecl.
    { rewrite Hlabels. unfold labels_of_call, declared_inputs.
      destruct (kw_input_family kw); cbn; [by rewrite labels_of_length | lia..]. }
    case_bool_decide as Hempty; cbn [negb].
    + eapply returns_bind, returns_wand;
        [apply insert_input_converters_loop_spec; lia|]. cbn beta.
      intros ok st2 (convs & Hreg2 & Hconvs & Hok).
      pose proof (converters_for_kinds _ _ _ Hconvs) as Hkinds.
      destruct ok; cbn [negb].
      * destruct Hok as [Hall Herr2].
        rewrite Hall, firstn_all in Hconvs.
        run register_callback_spec. intros [|] st3 H3; cbn [negb]; apply returns_ret.
        -- destruct H3 as (Hn & Herr3 & Hreg3).
           rewrite <- Hlabels. split_and!; try done; try lia; try congruence.
           exists (functor_name p), convs. split_and!; [done | done |].
           rewrite Hreg3, Hreg2, Hreg1. rewrite <- (assoc_L (++)).
           unfold callback_node. by rewrite <- Hlabels, Htarget.
        -- destruct H3 as (Hreg3 & Herr3 & _). split; [done|].
           exists convs. split_and!; [congruence | done | lia].
      * destruct Hok as [Hlt Herr2]. apply returns_ret. split; [done|].
        exists convs. split_and!; [congruence | done | lia].
    + eapply returns_wand; [apply fail_with_spec|].
      intros r st2 (-> & Herr & Hreg2). split; [done|].
      exists []. rewrite app_nil_r. split_and!; [congruence | done | cbn; lia].
  - destruct Hp as [_ Herr]. apply returns_ret. split; [done|].
    exists []. rewrite app_nil_r. split_and!; [done | done | cbn; lia].
Qed.

(** Everything a call of [md_transform] can do, if it returns. *)
Lemma md_transform_spec kw st :
  ensures (md_transform (Some kw)) st
    (λ r st',
       match r with
       | Some _ =>
           acceptable kw = true
           ∧ 1 ≤ length (labels_of_call kw) ≤ 3
           ∧ ∃ name out t convs outc,
               algorithm_name_of kw = Some name
               ∧ output_labels_of_call kw = [out]
               ∧ expected_output_types (kw_callable kw) = [t]
               ∧ converters_for name (labels_of_call kw) convs
               ∧ kind outc = TransformNode
               ∧ inputs outc = [query ("py" +:+ out +:+ "_" +:+ name)]
               ∧ outputs outc = [out]
               ∧ registered st'
                 = registered st ++ convs
                   ++ [callback_node true kw name ["py" +:+ out +:+ "_" +:+ name];
                       outc]
       | None =>
           is_Some (error_indicator st')
           ∧ ∃ nodes, registered st' = registered st ++ nodes
                      ∧ Forall (λ c, kind c = TransformNode) nodes
                      ∧ length nodes ≤ declared_inputs kw + 1
       end).
Proof.
  unfold md_transform.
  eapply ensures_bind, ensures_wand; [eapply runs_ensures, parse_args_outcome|].
  cbn beta. intros [p|] st1 (Hreg1 & _ & Hp).
  - destruct Hp as (Hacc & Hname & Hlabels & Htypes & Hlen & Holabels & Hotypes & Htarget).
    assert (length (input_labels p) ≤ declared_inputs kw) as Hdecl.
    { rewrite Hlabels. unfold labels_of_call, declared_inputs.
      destruct (kw_input_family kw); cbn; [by rewrite labels_of_length | lia..]. }
    assert (length (output_labels p) ≤ 1) as Hone.
    { rewrite Holabels. unfold acceptable in Hacc.
      rewrite !andb_true_iff, !bool_decide_eq_true in Hacc.
      destruct Hacc as [[[_ Hle] _] _]. revert Hle.
      unfold output_labels_of_call, declared_outputs.
      destruct (kw_output_products kw) as [[outs| |]|]; cbn;
        rewrite ?labels_of_length; intros; lia. }
    case_bool_decide as Hempty.
    + apply returns_ensures. eapply returns_wand; [apply fail_with_spec|].
      intros r st2 (-> & Herr & Hreg2). split; [done|].
      exists []. rewrite app_nil_r. split_and!; [congruence | done | cbn; lia].
    + destruct (output_labels p) as [|out [|]] eqn:Hout; cbn [length] in Hone;
        [done | | lia].
      destruct (output_types p) as [|t ts] eqn:Hts; [done|].
      cbn [lookup list_lookup].
      assert (ts = []) as ->.
      { revert Hotypes. unfold expected_output_types.
        repeat case_match; congruence. }
      eapply ensures_bind, ensures_wand;
        [apply returns_ensures, insert_input_converters_loop_spec; lia|]. cbn beta.
      intros ok st2 (convs & Hreg2 & Hconvs & Hok).
      pose proof (converters_for_kinds _ _ _ Hconvs) as Hkinds.
      destruct ok; cbn [negb].
      * destruct Hok as [Hall Herr2]. rewrite Hall, firstn_all in Hconvs.
        eapply ensures_bind, ensures_wand;
          [apply returns_ensures, register_callback_spec|]. cbn beta.
        intros [|] st3 H3; cbn [negb].
        -- destruct H3 as (Hn & Herr3 & Hreg3).
           eapply ensures_wand; [apply insert_output_converter_spec|]. cbn beta.
           intros [[]|] st4 H4.
           ++ destruct H4 as (outc & Hreg4 & Hk4 & Hi4 & Ho4 & Herr4).
              rewrite <- Hlabels. split_and!; try done; try lia.
              exists (functor_name p), out, t, convs, outc.
              split_and!; try done; try congruence.
              rewrite Hreg4, Hreg3, Hreg2, Hreg1. rewrite <- !(assoc_L (++)).
              unfold callback_node. by rewrite <- Hlabels, Htarget.
           ++ destruct H4 as [Hreg4 Herr4]. split; [done|].
              eexists (convs ++ [_]). split_and!.
              ** rewrite Hreg4, Hreg3, Hreg2, Hreg1. by rewrite <- (assoc_L (++)).
              ** apply Forall_app. split; [done|]. by apply Forall_singleton.
              ** rewrite length_app. cbn. lia.
        -- destruct H3 as (Hreg3 & Herr3 & _). apply returns_ensures, returns_ret.
           split; [done|]. exists convs. split_and!; [congruence | done | lia].
      * destruct Hok as [Hlt Herr2]. apply returns_ensures, returns_ret.
        split; [done|]. exists convs. split_and!; [congruence | done | lia].
  - destruct Hp as [_ Herr]. apply returns_ensures, returns_ret. split; [done|].
    exists []. rewrite app_nil_r. split_and!; [done | done | cbn; lia].
Qed.




(** X16: when [md_observe] succeeds (it returns [Py_None]) it has
    appended to the module, in this order, one converter node per input
    label, each a transform that reads the labelled product in the layer
    "job" and writes the product [<name>_<label>py], and then one observer
    node with the registered name, without outputs, around the Python
    callable, which reads exactly the products the converters write, in
    label order; there are one to three input labels and no annotated
    return type. *)
Theorem md_observe_wiring (kw : kwargs) (st st' : state) :
  md_observe (Some kw) st = Ret (Some tt) st' →
  acceptable kw = true
  ∧ expected_output_types (kw_callable kw) = []
  ∧ 1 ≤ length (labels_of_call kw) ≤ 3
  ∧ ∃ name convs,
      algorithm_name_of kw = Some name
      ∧ converters_for name (labels_of_call kw) convs
      ∧ registered st'
        = registered st ++ convs ++ [callback_node false kw name []].
Proof.
  intros Hrun. pose proof (md_observe_spec kw st) as Hobs.
  unfold ensures in Hobs. by rewrite Hrun in Hobs.
Qed.

(** X17: when [md_transform] succeeds (it returns [Py_None]) it has
    appended to the module one converter node per input label, then the transform
    around the Python callable under the registered name, which reads the
    products the converters write and writes [py<out>_<name>], and last an
    output converter, a transform that reads [py<out>_<name>] and writes
    the single declared output product [out]; there are one to three input
    labels and exactly one annotated return type. *)
Theorem md_transform_wiring (kw : kwargs) (st st' : state) :
  md_transform (Some kw) st = Ret (Some tt) st' →
  acceptable kw = true
  ∧ 1 ≤ length (labels_of_call kw) ≤ 3
  ∧ ∃ name out t convs outc,
      algorithm_name_of kw = Some name
      ∧ output_labels_of_call kw = [out]
      ∧ expected_output_types (kw_callable kw) = [t]
      ∧ converters_for name (labels_of_call kw) convs
      ∧ kind outc = TransformNode
      ∧ inputs outc = [query ("py" +:+ out +:+ "_" +:+ name)]
      ∧ outputs outc = [out]
      ∧ registered st'
        = registered st ++ convs
          ++ [callback_node true kw name ["py" +:+ out +:+ "_" +:+ name]; outc].
Proof.
  intros Hrun. pose proof (md_transform_spec kw st) as Htr.
  unfold ensures in Htr. by rewrite Hrun in Htr.
Qed.

(** X18: a call of [md_transform] that [parse_args] lets through, whose
    callable has an annotated return type, but that declares no output
    label (the argument is missing or an empty sequence) reads
    [output_labels[0]] of an empty vector: the call has no defined
    result. *)
Theorem md_transform_without_output_label (kw : kwargs) (st : state) :
  acceptable kw = true →
  expected_output_types (kw_callable kw) ≠ [] →
  declared_outputs kw = 0 →
  md_transform (Some kw) st = Crash "output_labels[0] out of range".
Proof.
  intros Hacc Htypes Hnone.
  pose proof (parse_args_outcome kw st) as Hparse. unfold runs in Hparse.
  unfold md_transform, mbind, M_bind.
  destruct (parse_args (Some kw) st) as [[p|] st1|];
    [| | destruct Hparse; congruence].
  - destruct Hparse as (_ & _ & _ & _ & _ & _ & _ & Holabels & Hotypes & _).
    rewrite bool_decide_eq_false_2 by congruence.
    rewrite Holabels.
    assert (output_labels_of_call kw = []) as ->; [|done].
    revert Hnone. unfold output_labels_of_call, declared_outputs.
    destruct (kw_output_products kw) as [[[|o outs]| |]|]; cbn; done.
  - destruct Hparse as (_ & _ & ? & _). congruence.
Qed.

Lemma insert_input_converter_scalar cname inp t st :
  t ∈ scalar_types → ∃ st', insert_input_converter cname inp t st = Ret true st'.
Proof.
  unfold scalar_types. intros Ht.
  repeat (apply elem_of_cons in Ht as [-> | Ht]); try (eexists; reflexivity).
  by apply elem_of_nil in Ht.
Qed.

Lemma insert_input_converters_loop_scalar cname types labels i st :
  Forall (λ t, t ∈ scalar_types) types →
  i + length labels ≤ length types →
  ∃ st', insert_input_converters_loop cname types i labels st = Ret true st'.
Proof.
  intros Htypes. revert i st. induction labels as [|inp rest IH]; intros i st Hlen;
    cbn [insert_input_converters_loop length] in *; [by eexists|].
  destruct (types !! i) as [t|] eqn:Ht; [|apply lookup_ge_None in Ht; lia].
  assert (t ∈ scalar_types) as Hsc.
  { rewrite Forall_forall in Htypes. apply Htypes.
    apply list_elem_of_lookup. eauto. }
  destruct (insert_input_converter_scalar cname inp t st Hsc) as [st1 H1].
  unfold mbind, M_bind. rewrite H1. apply IH. lia.
Qed.

Lemma insert_output_converter_scalar cname out t st :
  t ∈ scalar_types →
  ∃ st', insert_output_converter cname out t st = Ret (Some tt) st'.
Proof.
  unfold scalar_types. intros Ht.
  repeat (apply elem_of_cons in Ht as [-> | Ht]); try (eexists; reflexivity).
  by apply elem_of_nil in Ht.
Qed.

Lemma register_callback_succeeds rv cname callable labels py_out st :
  1 ≤ length labels ≤ 3 →
  ∃ st', register_callback rv cname callable labels py_out st = Ret true st'.
Proof.
  destruct labels as [|l0 [|l1 [|l2 [|l3 rest]]]]; cbn [length]; intros ?;
    try lia; destruct rv; eexists; reflexivity.
Qed.

(** X19: registration succeeds on scalar types.  For a call that
    [parse_args] lets through, with one to three input labels whose
    annotated types are all among bool, int, unsigned int, long, unsigned
    long, float and double: [md_observe] returns [Py_None] when there is
    no annotated return type, and [md_transform] returns [Py_None] when
    the annotated return type is one of those seven and one output label
    is declared. *)
Theorem registration_succeeds_on_scalars (kw : kwargs) (st : state) :
  acceptable kw = true →
  Forall (λ t, t ∈ scalar_types) (annotated_inputs (kw_callable kw)) →
  1 ≤ declared_inputs kw ≤ 3 →
  (expected_output_types (kw_callable kw) = [] →
     ∃ st', md_observe (Some kw) st = Ret (Some tt) st') ∧
  (∀ t, expected_output_types (kw_callable kw) = [t] → t ∈ scalar_types →
        declared_outputs kw = 1 →
        ∃ st', md_transform (Some kw) st = Ret (Some tt) st').
Proof.
  intros Hacc Hscalar Hn.
  pose proof (parse_args_outcome kw st) as Hparse. unfold runs in Hparse.
  unfold md_observe, md_transform, mbind, M_bind.
  destruct (parse_args (Some kw) st) as [[p|] st1|];
    [| destruct Hparse as (_ & _ & ? & _); congruence
     | destruct Hparse; congruence].
  destruct Hparse as (_ & _ & _ & _ & Hlabels & Htypes & Hlen & Holabels & Hotypes & _).
  assert (length (input_labels p) = declared_inputs kw) as Hdecl.
  { rewrite Hlabels. unfold labels_of_call, declared_inputs in *.
    destruct (kw_input_family kw); cbn; [by rewrite labels_of_length | lia..]. }
  destruct (insert_input_converters_loop_scalar (functor_name p) (input_types p)
              (input_labels p) 0 st1) as [st2 H2]; [by rewrite Htypes | lia |].
  unfold insert_input_converters. split.
  - intros Hnone. rewrite bool_decide_eq_true_2 by congruence. cbn [negb].
    rewrite H2. cbn [negb].
    destruct (register_callback_succeeds false (functor_name p) (target p)
                (input_labels p) "" st2) as [st3 H3]; [lia|].
    rewrite H3. cbn. by eexists.
  - intros t Ht Hsc Hone. rewrite bool_decide_eq_false_2 by congruence.
    rewrite Hotypes, Ht, Holabels.
    assert (∃ out, output_labels_of_call kw = [out]) as [out ->].
    { revert Hone. unfold output_labels_of_call, declared_outputs.
      destruct (kw_output_products kw) as [[[|o [|o' outs]]| |]|]; cbn; try done.
      intros _. destruct o; by eexists. }
    cbn [lookup list_lookup]. rewrite H2. cbn [negb].
    destruct (register_callback_succeeds true (functor_name p) (target p)
                (input_labels p) ("py" +:+ out +:+ "_" +:+ functor_name p) st2)
      as [st3 H3]; [lia|].
    rewrite H3. cbn [negb].
    by apply insert_output_converter_scalar.
Qed.

End module_wrap_more.


(** X16 on [check] registered as an observer of "i". *)
Lemma md_observe_wiring_witness :
  let kw := ModuleWrap.Kwargs ModuleWrap.typed_check (ModuleWrap.labels ["i"])
              None None None in
  ∃ st', ModuleWrap.md_observe (Some kw) ModuleWrap.empty_module
         = ModuleWrap.Ret (Some tt) st'
         ∧ ModuleWrap.acceptable kw = true
         ∧ ModuleWrap.expected_output_types (ModuleWrap.kw_callable kw) = []
         ∧ ∃ conv, ModuleWrap.registered st'
                   = [conv; ModuleWrap.callback_node false kw "check" []].
Proof.
  cbn zeta.
  assert (∃ st', ModuleWrap.md_observe
                   (Some (ModuleWrap.Kwargs ModuleWrap.typed_check
                            (ModuleWrap.labels ["i"]) None None None))
                   ModuleWrap.empty_module = ModuleWrap.Ret (Some tt) st')
    as [st' Hrun] by (eexists; vm_compute; reflexivity).
  exists st'. split; [exact Hrun|].
  destruct (md_observe_wiring _ _ _ Hrun)
    as (Hacc & Hnone & _ & name & convs & Hname & Hconvs & Hreg).
  split; [exact Hacc|]. split; [exact Hnone|].
  injection Hname as <-.
  apply Forall2_length in Hconvs.
  destruct convs as [|conv [|]]; try discriminate Hconvs.
  exists conv. exact Hreg.
Defined.

(** X17 on [add] registered as a transform from "i" and "j" to "sum". *)
Lemma md_transform_wiring_witness :
  let kw := ModuleWrap.Kwargs ModuleWrap.typed_add (ModuleWrap.labels ["i"; "j"])
              (Some (ModuleWrap.labels ["sum"])) None None in
  ∃ st', ModuleWrap.md_transform (Some kw) ModuleWrap.empty_module
         = ModuleWrap.Ret (Some tt) st'
         ∧ ModuleWrap.acceptable kw = true
         ∧ 1 ≤ length (ModuleWrap.labels_of_call kw) ≤ 3.
Proof.
  cbn zeta.
  assert (∃ st', ModuleWrap.md_transform
                   (Some (ModuleWrap.Kwargs ModuleWrap.typed_add
                            (ModuleWrap.labels ["i"; "j"])
                            (Some (ModuleWrap.labels ["sum"])) None None))
                   ModuleWrap.empty_module = ModuleWrap.Ret (Some tt) st')
    as [st' Hrun] by (eexists; vm_compute; reflexivity).
  exists st'. split; [exact Hrun|].
  destruct (md_transform_wiring _ _ _ Hrun) as (Hacc & Hn & _).
  split; [exact Hacc | exact Hn].
Defined.

(** X18 on [add], annotated [-> int], registered without output label. *)
Lemma md_transform_without_output_label_witness :
  ModuleWrap.md_transform
    (Some (ModuleWrap.Kwargs ModuleWrap.typed_add (ModuleWrap.labels ["i"; "j"])
             None None None)) ModuleWrap.empty_module
  = ModuleWrap.Crash "output_labels[0] out of range".
Proof.
  apply md_transform_without_output_label; [reflexivity | discriminate | reflexivity].
Defined.

(** X19 on [check] as an observer of "i" and [add] as a transform from "i"
    and "j" to "sum". *)
Lemma registration_succeeds_on_scalars_witness :
  (∃ st', ModuleWrap.md_observe
            (Some (ModuleWrap.Kwargs ModuleWrap.typed_check
                     (ModuleWrap.labels ["i"]) None None None))
            ModuleWrap.empty_module = ModuleWrap.Ret (Some tt) st') ∧
  (∃ st', ModuleWrap.md_transform
            (Some (ModuleWrap.Kwargs ModuleWrap.typed_add
                     (ModuleWrap.labels ["i"; "j"])
                     (Some (ModuleWrap.labels ["sum"])) None None))
            ModuleWrap.empty_module = ModuleWrap.Ret (Some tt) st').
Proof.
  split.
  - apply (registration_succeeds_on_scalars
             (ModuleWrap.Kwargs ModuleWrap.typed_check (ModuleWrap.labels ["i"])
                None None None));
      [reflexivity | repeat constructor | cbn; lia | reflexivity].
  - apply (proj2 (registration_succeeds_on_scalars
                    (ModuleWrap.Kwargs ModuleWrap.typed_add
                       (ModuleWrap.labels ["i"; "j"])
                       (Some (ModuleWrap.labels ["sum"])) None None)
                    ModuleWrap.empty_module eq_refl
                    ltac:(repeat constructor) ltac:(cbn; lia)) "int");
      [reflexivity | repeat constructor | reflexivity].
Defined.

(* ===================================================================== *)
(** ** Further properties: the value converters                           *)
(* ===================================================================== *)

Section converter_more.
Import Converters.

Lemma PyLong_AsLong_in_range z e :
  is_long z → PyLong_AsLong (PyLong z) e = Some (z, e).
Proof.
  intros Hz. unfold PyLong_AsLong. by rewrite bool_decide_eq_true_2.
Qed.

Lemma PyLong_AsUnsignedLong_in_range z e :
  is_ulong z → PyLong_AsUnsignedLong (PyLong z) e = Some (z, e).
Proof.
  intros Hz. unfold PyLong_AsUnsignedLong. by rewrite bool_decide_eq_true_2.
Qed.

Lemma to_int_id z : is_int z → CInt.to_int z = z.
Proof.
  unfold is_int, CInt.to_int, CInt.INT_MIN, CInt.INT_MAX.
  change (2 ^ 32)%Z with 4294967296%Z. change (2 ^ 31)%Z with 2147483648%Z.
  intros Hz. cbv zeta. destruct (Z_lt_le_dec z 0) as [Hneg|Hpos].
  - replace (z mod 4294967296)%Z with (z + 4294967296)%Z.
    + destruct (Z.ltb_spec (z + 4294967296) 2147483648); lia.
    + apply (Zmod_unique _ _ (-1)); lia.
  - rewrite Z.mod_small by lia. destruct (Z.ltb_spec z 2147483648); lia.
Qed.

Lemma to_int_fixed z : CInt.to_int z = z → is_int z.
Proof.
  unfold is_int, CInt.to_int, CInt.INT_MIN, CInt.INT_MAX.
  change (2 ^ 32)%Z with 4294967296%Z. change (2 ^ 31)%Z with 2147483648%Z.
  cbv zeta. pose proof (Z.mod_pos_bound z 4294967296 ltac:(lia)).
  destruct (Z.ltb_spec (z mod 4294967296) 2147483648); lia.
Qed.

Lemma is_int_long z : is_int z → is_long z.
Proof.
  unfold is_int, is_long, CInt.INT_MIN, CInt.INT_MAX, CInt.LONG_MIN, CInt.LONG_MAX.
  change (- 2 ^ 63)%Z with (-9223372036854775808)%Z.
  change (2 ^ 63 - 1)%Z with 9223372036854775807%Z. lia.
Qed.

Lemma is_uint_ulong z : is_uint z → is_ulong z ∧ (z < CInt.ULONG_MAX)%Z.
Proof.
  unfold is_uint, is_ulong, CInt.ULONG_MAX.
  change (2 ^ 32)%Z with 4294967296%Z.
  change (2 ^ 64 - 1)%Z with 18446744073709551615%Z. lia.
Qed.

Lemma pylong_or_int_as_ulong_below_max a e :
  is_ulong a → (a < CInt.ULONG_MAX)%Z ∨ e = None →
  pylong_or_int_as_ulong (PyLong a) e = Some (a, e).
Proof.
  intros Ha Hok. unfold pylong_or_int_as_ulong, mbind, P_bind.
  cbn [PyFloat_Check]. rewrite PyLong_AsUnsignedLong_in_range by done.
  unfold PyErr_Occurred. destruct Hok as [Hlt | ->].
  - by rewrite (proj2 (Z.eqb_neq _ _)) by lia.
  - rewrite bool_decide_eq_false_2 by (by intros [? ?]).
    by rewrite andb_false_r.
Qed.

(** X20: a C++ value handed to Python and converted back is unchanged,
    and the error indicator with it: for [bool], for [int], [unsigned int]
    and [long] values in the range of their type, and for [unsigned long]
    values unless the value is the largest one while an error is already
    pending. *)
Theorem scalar_round_trips (e : option py_error) :
  (∀ a : bool, py_to_bool (bool_to_py a) e = Some (a, e)) ∧
  (∀ a, is_int a → py_to_int (int_to_py a) e = Some (a, e)) ∧
  (∀ a, is_uint a → py_to_uint (uint_to_py a) e = Some (a, e)) ∧
  (∀ a, is_long a → py_to_long (long_to_py a) e = Some (a, e)) ∧
  (∀ a, is_ulong a → (a < CInt.ULONG_MAX)%Z ∨ e = None →
        py_to_ulong (ulong_to_py a) e = Some (a, e)).
Proof.
  split_and!.
  - by intros [].
  - intros a Ha. unfold py_to_int, int_to_py, mbind, P_bind.
    rewrite PyLong_AsLong_in_range by by apply is_int_long.
    unfold mret, P_ret. by rewrite to_int_id.
  - intros a Ha. destruct (is_uint_ulong a Ha) as [Hul Hlt].
    unfold py_to_uint, uint_to_py, mbind, P_bind.
    rewrite pylong_or_int_as_ulong_below_max by auto.
    unfold mret, P_ret, CInt.uint. rewrite Z.mod_small; [done | exact Ha].
  - intros a Ha. unfold py_to_long, long_to_py, pylong_as_strictlong.
    cbn [PyLong_Check negb]. by apply PyLong_AsLong_in_range.
  - intros a Ha Hok. by apply pylong_or_int_as_ulong_below_max.
Qed.

(** X21: [py_to_bool] takes the integers 0 and 1 (as an int, a bool, or
    through [__index__]) for false and true and leaves the error
    indicator alone; for every other object, floats included, it sets a
    ValueError and returns true. *)
Theorem py_to_bool_accepts_0_and_1 (o : pyobject) (e : option py_error) :
  match o with
  | PyLong z | PyIndexable z =>
      if bool_decide (z = 0 ∨ z = 1)%Z
      then py_to_bool o e = Some (bool_decide (z = 1%Z), e)
      else ∃ text, py_to_bool o e = Some (true, Some (PyError ValueError text))
  | _ => ∃ text, py_to_bool o e = Some (true, Some (PyError ValueError text))
  end.
Proof.
  unfold py_to_bool, pylong_as_bool, mbind, P_bind.
  destruct o as [z| |z|items|dims data|]; try (by eexists).
  all: unfold PyLong_AsLong; case_bool_decide as Hz.
  all: try (destruct Hz as [-> | ->]; done).
  all: case_bool_decide as Hrange; cbn [PyFloat_Check orb mret P_ret];
    [|by eexists].
  all: destruct (Z.eqb_spec z 0), (Z.eqb_spec z 1); try lia; cbn; by eexists.
Qed.

(** X22: [py_to_int] reports no error for an int that fits a [long] but
    not an [int]: it returns the low 32 bits read as a two's complement
    number, which is the value itself exactly when the value is an [int];
    out of the range of [long] it returns -1 with an OverflowError. *)
Theorem py_to_int_truncates (z : Z) (e : option py_error) :
  (is_long z → py_to_int (PyLong z) e = Some (CInt.to_int z, e)) ∧
  (CInt.to_int z = z ↔ is_int z) ∧
  (¬ is_long z →
     ∃ text, py_to_int (PyLong z) e = Some ((-1)%Z, Some (PyError OverflowError text))).
Proof.
  split_and!.
  - intros Hz. unfold py_to_int, mbind, P_bind. by rewrite PyLong_AsLong_in_range.
  - split; [apply to_int_fixed | apply to_int_id].
  - intros Hz. unfold py_to_int, mbind, P_bind, PyLong_AsLong.
    rewrite bool_decide_eq_false_2 by done. by eexists.
Qed.

(** X23: with no error pending, [py_to_ulong] returns an int between 0
    and the largest [unsigned long] as it is and sets no error; for any
    other int, negative or too large, it returns [(unsigned long)-1] with
    a ValueError, for a float and for any other object with a TypeError. *)
Theorem py_to_ulong_accepts_range (o : pyobject) :
  match o with
  | PyLong z =>
      if bool_decide (is_ulong z) then py_to_ulong o None = Some (z, None)
      else ∃ text, py_to_ulong o None
                   = Some (CInt.ULONG_MAX, Some (PyError ValueError text))
  | _ => ∃ text, py_to_ulong o None
                 = Some (CInt.ULONG_MAX, Some (PyError TypeError text))
  end.
Proof.
  unfold py_to_ulong, pylong_or_int_as_ulong, mbind, P_bind.
  destruct o as [z| |z|items|dims data|]; try (by eexists).
  case_bool_decide as Hz.
  - apply (pylong_or_int_as_ulong_below_max z None); [done | by right].
  - unfold PyLong_AsUnsignedLong. cbn [PyFloat_Check].
    rewrite bool_decide_eq_false_2 by done.
    cbv [mbind P_bind mret P_ret PyErr_SetString PyErr_Occurred PyErr_Clear].
    rewrite Z.eqb_refl, bool_decide_eq_true_2 by eauto. cbn [andb PyLong_Check].
    unfold PyLong_AsLong. case_bool_decide as Hlong;
      cbv [mbind P_bind mret P_ret PyErr_SetString]; [|by eexists].
    assert ((0 <=? z)%Z = false) as ->; [|by eexists].
    apply Z.leb_gt. revert Hz Hlong. unfold is_ulong, CInt.ULONG_MAX, CInt.LONG_MAX.
    change (2 ^ 64 - 1)%Z with 18446744073709551615%Z.
    change (2 ^ 63 - 1)%Z with 9223372036854775807%Z. lia.
Qed.

(** X24: [py_to_long] is strict where [py_to_int] is not: an object that
    is no int but has an [__index__] giving a value in range is converted
    by [py_to_int], while [py_to_long] returns -1 with a TypeError for it,
    as for every object that is no int. *)
Theorem py_to_long_is_strict (o : pyobject) (e : option py_error) :
  (PyLong_Check o = false →
     ∃ text, py_to_long o e = Some ((-1)%Z, Some (PyError TypeError text))) ∧
  (∀ z, is_int z → py_to_int (PyIndexable z) e = Some (z, e)).
Proof.
  split.
  - intros Ho. unfold py_to_long, pylong_as_strictlong. rewrite Ho. by eexists.
  - intros z Hz. unfold py_to_int, mbind, P_bind, PyLong_AsLong.
    rewrite bool_decide_eq_true_2.
    + cbn. by rewrite to_int_id.
    + by apply is_int_long.
Qed.

Lemma list_loop_all_good convert cast (zs : list Z) :
  (∀ z, z ∈ zs → ∀ e, convert (PyLong z) e = Some (z, e)) →
  list_loop convert cast (PyLong <$> zs) None = Some (cast <$> zs, None).
Proof.
  induction zs as [|z zs IH]; intros Hgood; [done|].
  cbn [fmap list_fmap list_loop]. unfold mbind, P_bind.
  rewrite Hgood by left. cbn. rewrite IH; [done|].
  intros z' Hz'. apply Hgood. by right.
Qed.

(** X25: with no error pending, a vector of [int], [unsigned int], [long]
    or [unsigned long] handed to Python as a list and converted back is
    the same vector, and no error is set. *)
Theorem vector_round_trips (v : list Z) :
  (Forall is_int v → py_to_vint (vint_to_py (Some v)) None = Some (v, None)) ∧
  (Forall is_uint v → py_to_vuint (vuint_to_py (Some v)) None = Some (v, None)) ∧
  (Forall is_long v → py_to_vlong (vlong_to_py (Some v)) None = Some (v, None)) ∧
  (Forall is_ulong v → py_to_vulong (vulong_to_py (Some v)) None = Some (v, None)).
Proof.
  pose proof is_int_long as Hil.
  assert (∀ z, is_uint z → is_ulong z) as Hul
    by (intros z Hz; by destruct (is_uint_ulong z Hz)).
  unfold py_to_vint, py_to_vuint, py_to_vlong, py_to_vulong, py_to_vector,
    vint_to_py, vuint_to_py, vlong_to_py, vulong_to_py, vector_to_py.
  split_and!; intros Hv; rewrite Forall_forall in Hv; rewrite list_loop_all_good.
  - f_equal. f_equal. rewrite <- (list_fmap_id v) at 2.
    apply list_fmap_ext. intros ? z Hz. apply to_int_id, Hv.
    by apply list_elem_of_lookup_2 in Hz.
  - intros z Hz e. apply PyLong_AsLong_in_range, Hil, Hv, Hz.
  - f_equal. f_equal. rewrite <- (list_fmap_id v) at 2.
    apply list_fmap_ext. intros ? z Hz. unfold CInt.uint.
    apply Z.mod_small, Hv. by apply list_elem_of_lookup_2 in Hz.
  - intros z Hz e. apply PyLong_AsUnsignedLong_in_range, Hul, Hv, Hz.
  - by rewrite list_fmap_id.
  - intros z Hz e. apply PyLong_AsLong_in_range, Hv, Hz.
  - by rewrite list_fmap_id.
  - intros z Hz e. apply PyLong_AsUnsignedLong_in_range, Hv, Hz.
Qed.

(** X26: the list converters give up silently.  With no error pending,
    [py_to_vint] on a list whose first item that is no int (nor has an
    [__index__]) comes after some ints returns only the ints before it,
    cut to [int], drops everything after it, and leaves no error set; and
    when an error is already pending on entry it returns the empty vector
    for any non-empty list of ints, and clears that error. *)
Theorem py_to_vint_stops_silently (zs : list Z) (rest : list pyobject)
    (z : Z) (stale : py_error) :
  (Forall is_long zs →
     py_to_vint (Some (PyList ((PyLong <$> zs) ++ PyOther :: rest))) None
     = Some (CInt.to_int <$> zs, None)) ∧
  (is_long z →
     py_to_vint (Some (PyList (PyLong z :: (PyLong <$> zs)))) (Some stale)
     = Some ([], None)).
Proof.
  unfold py_to_vint, py_to_vector. split.
  - induction 1 as [|z' zs' Hz' _ IH]; [done|].
    cbn [fmap list_fmap app list_loop]. unfold mbind, P_bind.
    rewrite PyLong_AsLong_in_range by done. cbn.
    cbn [fmap list_fmap app] in IH. unfold mbind, P_bind in IH. by rewrite IH.
  - intros Hz. cbn [list_loop]. unfold mbind, P_bind.
    by rewrite PyLong_AsLong_in_range.
Qed.

End converter_more.

(** X20 at the largest [int] and the largest [unsigned long]. *)
Lemma scalar_round_trips_witness :
  Converters.py_to_int (Converters.int_to_py 2147483647) None
  = Some (2147483647%Z, None) ∧
  Converters.py_to_ulong (Converters.ulong_to_py 18446744073709551615) None
  = Some (18446744073709551615%Z, None).
Proof.
  split.
  - apply (proj1 (proj2 (scalar_round_trips None))). by vm_compute.
  - apply (proj2 (proj2 (proj2 (proj2 (scalar_round_trips None))))).
    + by vm_compute.
    + by right.
Defined.

(** X25 on a vector of three [int]. *)
Lemma vector_round_trips_witness :
  Converters.py_to_vint (Converters.vint_to_py (Some [3; -7; 2147483647]%Z)) None
  = Some ([3; -7; 2147483647]%Z, None).
Proof.
  apply (proj1 (vector_round_trips _)). repeat constructor; by vm_compute.
Defined.

(** X26 on the list [1, 2, "x", 4]. *)
Lemma py_to_vint_stops_silently_witness :
  Converters.py_to_vint
    (Some (Converters.PyList
             [Converters.PyLong 1; Converters.PyLong 2; Converters.PyOther;
              Converters.PyLong 4])) None
  = Some ([1; 2]%Z, None).
Proof.
  apply (proj1 (py_to_vint_stops_silently [1; 2]%Z [Converters.PyLong 4] 0
                  (Converters.PyError Converters.TypeError ""))).
  repeat constructor; by vm_compute.
Defined.
